(** * TruffleHog: the detection engine and the GitHub enumerator

  A shallow embedding of [pkg/engine/engine.go] (options, [Start], the
  worker loop [detectorWorker] and the shutdown of the results channel)
  and of the behaviour that [pkg/sources/github/github_test.go] asserts
  of the GitHub source.

  Conventions.
  - A Go [string] and a Go [[]byte] are both a sequence of bytes: [string].
  - A Go [int] is a [Z]; the code never does arithmetic on it.
  - [map[bool][]Detector] is a [gmap bool (list Detector)].  The code
    looks at a map only through [len], indexing and [range], so the nil
    map is the empty map and the nil slice is the empty list.
  - [range] over a Go map visits its keys in an order the language leaves
    open and that changes from one loop to the next; the order is an
    explicit argument of the model, constrained by [rangeOrder].
  - The worker's effects (a call of a detector's [FromData], a logged
    error, a send on the results channel) are recorded as a trace of
    [Event]s. *)

From Stdlib Require Import ZArith String Ascii List Lia Permutation.
From stdpp Require Import base gmap list strings.

Local Open Scope Z_scope.

(** ** The two functions of Go's [strings] package the engine calls *)
Module GoStrings.

(** [strings.HasPrefix s prefix]. *)
Fixpoint HasPrefix (s prefix : string) {struct prefix} : bool :=
  match prefix, s with
  | EmptyString, _ => true
  | String _ _, EmptyString => false
  | String b prefix', String a s' =>
      if Ascii.eqb a b then HasPrefix s' prefix' else false
  end.

(** [strings.HasSuffix s suffix]. *)
Definition HasSuffix (s suffix : string) : bool :=
  HasPrefix (String.rev s) (String.rev suffix).

(** [strings.Contains s substr]: [substr] starts at some offset of [s]. *)
Fixpoint Contains (s substr : string) : bool :=
  HasPrefix s substr ||
  match s with
  | EmptyString => false
  | String _ s' => Contains s' substr
  end.

(** What [strings.ToLower] does on a string of ASCII bytes only: the
    letters A to Z are lower-cased and every other byte is left.  On any
    other string [strings.ToLower] goes by the Unicode tables, and this
    function is not it: the engine below is modelled over a parameter
    [ToLower], which this function instantiates on ASCII samples only. *)
Definition lowerByte (a : ascii) : ascii :=
  let n := nat_of_ascii a in
  if (65 <=? n)%nat && (n <=? 90)%nat then ascii_of_nat (n + 32) else a.

Fixpoint asciiToLower (s : string) : string :=
  match s with
  | EmptyString => EmptyString
  | String a s' => String (lowerByte a) (asciiToLower s')
  end.

End GoStrings.

(** ** pkg/engine *)
Module Engine.
Import GoStrings.

Section Engine.

(** What the engine takes from other packages: the payload types of
    [pkg/sources] and [pkg/detectors], [detectors.CopyMetadata], the
    default sets, [strings.ToLower] and [runtime.NumCPU]. *)
Context {Metadata Result ResultWithMetadata error : Type}.
Variable ToLower : string -> string.
Variable NumCPU : Z.

(** [sources.Chunk]: the bytes to scan and where they come from. *)
Record Chunk := { Data : string; SourceMetadata : Metadata }.

(** [decoders.Decoder]: [FromChunk] yields the decoded chunk or nil. *)
Record Decoder := { FromChunk : Chunk -> option Chunk }.

(** [detectors.Detector]: [FromData] returns [(results, err)]. *)
Record Detector := {
  Keywords : list string;
  FromData : bool -> string -> list Result * option error
}.

Variable CopyMetadata : Chunk -> Result -> ResultWithMetadata.
Variable DefaultDecoders : list Decoder.
Variable DefaultDetectors : list Detector.

(** [type Engine struct].  The two channels are part of [System] below. *)
Record Engine := {
  concurrency : Z;
  decoders : list Decoder;
  detectors : gmap bool (list Detector)
}.

Definition EngineOption := Engine -> Engine.

Definition WithConcurrency (c : Z) : EngineOption := fun e =>
  {| concurrency := c; decoders := decoders e; detectors := detectors e |}.

Definition WithDetectors (verify : bool) (d : list Detector) : EngineOption :=
  fun e =>
    {| concurrency := concurrency e;
       decoders := decoders e;
       detectors :=
         <[verify := default [] (detectors e !! verify) ++ d]> (detectors e) |}.

Definition WithDecoders (ds : list Decoder) : EngineOption := fun e =>
  {| concurrency := concurrency e; decoders := ds; detectors := detectors e |}.

(** The engine [Start] allocates, before any option runs. *)
Definition newEngine : Engine :=
  {| concurrency := 0; decoders := []; detectors := ∅ |}.

(** [for _, option := range options { option(e) }]. *)
Definition applyOptions (options : list EngineOption) : Engine :=
  fold_left (fun e option => option e) options newEngine.

(** [if e.concurrency == 0 { ... e.concurrency = numCPU }]. *)
Definition defaultConcurrency (e : Engine) : Engine :=
  if concurrency e =? 0
  then {| concurrency := NumCPU; decoders := decoders e; detectors := detectors e |}
  else e.

(** [if len(e.decoders) == 0 { e.decoders = decoders.DefaultDecoders() }]. *)
Definition defaultDecoders (e : Engine) : Engine :=
  if (length (decoders e) =? 0)%nat
  then {| concurrency := concurrency e; decoders := DefaultDecoders;
          detectors := detectors e |}
  else e.

(** [if len(e.detectors) == 0 { ...; e.detectors[true] = DefaultDetectors() }]. *)
Definition defaultDetectors (e : Engine) : Engine :=
  if (size (detectors e) =? 0)%nat
  then {| concurrency := concurrency e; decoders := decoders e;
          detectors := <[true := DefaultDetectors]> ∅ |}
  else e.

(** The engine [Start] returns. *)
Definition startEngine (options : list EngineOption) : Engine :=
  defaultDetectors (defaultDecoders (defaultConcurrency (applyOptions options))).

(** [for i := 0; i < e.concurrency; i++]: the number of workers started.
    The loop runs after the concurrency default and before the other two. *)
Definition workerCount (options : list EngineOption) : nat :=
  Z.to_nat (concurrency (defaultConcurrency (applyOptions options))).

(** *** The worker *)

Inductive Event :=
| EvFromData (detector : Detector) (verify : bool) (data : string)
| EvLogError (err : error)
| EvSend (r : ResultWithMetadata).

(** The keyword loop, with its [break]. *)
Fixpoint foundKeyword (dataLower : string) (keywords : list string) : bool :=
  match keywords with
  | [] => false
  | kw :: keywords' =>
      if Contains dataLower (ToLower kw) then true
      else foundKeyword dataLower keywords'
  end.

(** One turn of [for _, detector := range detectorsSet]. *)
Definition scanDetector (chunk decoded : Chunk) (dataLower : string)
    (verify : bool) (detector : Detector) : list Event :=
  if negb (foundKeyword dataLower (Keywords detector)) then []
  else
    let '(results, err) := FromData detector verify (Data decoded) in
    EvFromData detector verify (Data decoded) ::
    match err with
    | Some e => [EvLogError e]
    | None => (fun result => EvSend (CopyMetadata chunk result)) <$> results
    end.

Fixpoint rangeDetectors (chunk decoded : Chunk) (dataLower : string)
    (verify : bool) (detectorsSet : list Detector) : list Event :=
  match detectorsSet with
  | [] => []
  | detector :: rest =>
      scanDetector chunk decoded dataLower verify detector ++
      rangeDetectors chunk decoded dataLower verify rest
  end.

(** [for verify, detectorsSet := range e.detectors], the keys visited in
    the order [keys]. *)
Fixpoint rangePartitions (e : Engine) (chunk decoded : Chunk)
    (dataLower : string) (keys : list bool) : list Event :=
  match keys with
  | [] => []
  | verify :: keys' =>
      rangeDetectors chunk decoded dataLower verify
        (default [] (detectors e !! verify)) ++
      rangePartitions e chunk decoded dataLower keys'
  end.

(** The orders in which a [range] may visit the keys of [m]: each key
    once, in any order. *)
Definition mapKeys (m : gmap bool (list Detector)) : list bool :=
  (map_to_list m).*1.

Definition rangeOrder (m : gmap bool (list Detector)) (keys : list bool) : Prop :=
  keys ≡ₚ mapKeys m.

(** Everything the worker does with one decoder. *)
Definition scanDecoder (e : Engine) (keys : list bool) (chunk : Chunk)
    (decoder : Decoder) : list Event :=
  match FromChunk decoder chunk with
  | None => []
  | Some decoded =>
      let dataLower := ToLower (Data decoded) in
      rangePartitions e chunk decoded dataLower keys
  end.

(** [for _, decoder := range e.decoders]: the map is ranged over once for
    each decoder, [order i] being the order of the loop under the decoder
    at index [i]. *)
Fixpoint rangeDecoders (e : Engine) (order : nat -> list bool) (i : nat)
    (chunk : Chunk) (ds : list Decoder) : list Event :=
  match ds with
  | [] => []
  | decoder :: rest =>
      scanDecoder e (order i) chunk decoder ++
      rangeDecoders e order (S i) chunk rest
  end.

(** The body of [for chunk := range e.chunks]. *)
Definition processChunk (e : Engine) (order : nat -> list bool)
    (chunk : Chunk) : list Event :=
  rangeDecoders e order 0 chunk (decoders e).

(** [detectorWorker] on the chunks it draws before the channel is closed;
    [order j] gives the orders used under the [j]-th chunk. *)
Fixpoint detectorWorker (e : Engine) (order : nat -> nat -> list bool)
    (chunks : list Chunk) : list Event :=
  match chunks with
  | [] => []
  | chunk :: rest =>
      processChunk e (order 0%nat) chunk ++
      detectorWorker e (fun j => order (S j)) rest
  end.

(** What a trace puts on the results channel, and which calls it makes. *)
Fixpoint sends (t : list Event) : list ResultWithMetadata :=
  match t with
  | [] => []
  | EvSend r :: t' => r :: sends t'
  | _ :: t' => sends t'
  end.

Definition validOrder (e : Engine) (order : nat -> list bool) : Prop :=
  forall i, rangeOrder (detectors e) (order i).


(** *** The goroutines [Start] leaves behind

    [Start] starts one goroutine per worker and one more that waits for
    the workers and closes the results channel.  Both channels are
    unbuffered: a send completes when the other side receives.  The state
    of a worker is the place in [detectorWorker] where it stands.  The
    detectors being functions, what a worker will send under a chunk is
    known when it draws the chunk.  The producer may send a chunk or
    close [e.chunks] at any time, and the consumer takes every result
    offered on [e.results]. *)

Inductive Worker :=
| WReceive                                      (* blocked in [range e.chunks] *)
| WSend (pending : list ResultWithMetadata)     (* in the body, these results still to send *)
| WReturned                                     (* [detectorWorker] returned *)
| WDone.                                        (* [workerWg.Done()] executed *)

Inductive Closer :=
| CWait          (* in [workerWg.Wait()] *)
| CSleep         (* in [time.Sleep(time.Second)] *)
| CClosed.       (* [close(e.ResultsChan())] executed *)

Record System := {
  sysEngine : Engine;
  chunksClosed : bool;                   (* the producer closed [e.chunks] *)
  workers : list Worker;
  workerWg : Z;                          (* the counter of [workerWg] *)
  closer : Closer;
  resultsCloses : nat;                   (* how many times [e.results] was closed *)
  delivered : list ResultWithMetadata;   (* what the consumer received, in order *)
  produced : list ResultWithMetadata;    (* the findings of every chunk drawn so far *)
  panicked : bool                        (* a send met the closed results channel *)
}.

Definition setWorkers (ws : list Worker) (s : System) : System :=
  {| sysEngine := sysEngine s; chunksClosed := chunksClosed s; workers := ws;
     workerWg := workerWg s; closer := closer s;
     resultsCloses := resultsCloses s; delivered := delivered s;
     produced := produced s; panicked := panicked s |}.

Definition setChunksClosed (s : System) : System :=
  {| sysEngine := sysEngine s; chunksClosed := true; workers := workers s;
     workerWg := workerWg s; closer := closer s;
     resultsCloses := resultsCloses s; delivered := delivered s;
     produced := produced s; panicked := panicked s |}.

Definition setWorkerWg (n : Z) (s : System) : System :=
  {| sysEngine := sysEngine s; chunksClosed := chunksClosed s;
     workers := workers s; workerWg := n; closer := closer s;
     resultsCloses := resultsCloses s; delivered := delivered s;
     produced := produced s; panicked := panicked s |}.

Definition setCloser (c : Closer) (s : System) : System :=
  {| sysEngine := sysEngine s; chunksClosed := chunksClosed s;
     workers := workers s; workerWg := workerWg s; closer := c;
     resultsCloses := resultsCloses s; delivered := delivered s;
     produced := produced s; panicked := panicked s |}.

Definition closeResults (s : System) : System :=
  {| sysEngine := sysEngine s; chunksClosed := chunksClosed s;
     workers := workers s; workerWg := workerWg s; closer := CClosed;
     resultsCloses := S (resultsCloses s); delivered := delivered s;
     produced := produced s; panicked := panicked s |}.

Definition deliver (r : ResultWithMetadata) (s : System) : System :=
  {| sysEngine := sysEngine s; chunksClosed := chunksClosed s;
     workers := workers s; workerWg := workerWg s; closer := closer s;
     resultsCloses := resultsCloses s; delivered := delivered s ++ [r];
     produced := produced s; panicked := panicked s |}.

Definition produce (rs : list ResultWithMetadata) (s : System) : System :=
  {| sysEngine := sysEngine s; chunksClosed := chunksClosed s;
     workers := workers s; workerWg := workerWg s; closer := closer s;
     resultsCloses := resultsCloses s; delivered := delivered s;
     produced := produced s ++ rs; panicked := panicked s |}.

Definition setPanicked (s : System) : System :=
  {| sysEngine := sysEngine s; chunksClosed := chunksClosed s;
     workers := workers s; workerWg := workerWg s; closer := closer s;
     resultsCloses := resultsCloses s; delivered := delivered s;
     produced := produced s; panicked := true |}.

(** [Start]: the engine with its defaults, [workerCount] workers waiting
    for a chunk, the wait group at that count, and the closing goroutine
    waiting.  No chunk can arrive before [Start] returns, because the
    channel is reached through the engine it returns. *)
Definition Start (options : list EngineOption) : System :=
  {| sysEngine := startEngine options;
     chunksClosed := false;
     workers := replicate (workerCount options) WReceive;
     workerWg := Z.of_nat (workerCount options);
     closer := CWait;
     resultsCloses := 0;
     delivered := [];
     produced := [];
     panicked := false |}.

(** One step of one goroutine, or of the producer feeding [e.chunks]. *)
Inductive step : System -> System -> Prop :=
| step_draw s i chunk order :
    (* the producer sends [chunk]; worker [i] receives it and runs the body *)
    chunksClosed s = false ->
    workers s !! i = Some WReceive ->
    validOrder (sysEngine s) order ->
    step s (produce (sends (processChunk (sysEngine s) order chunk))
              (setWorkers
                 (<[i := WSend (sends (processChunk (sysEngine s) order chunk))]>
                    (workers s)) s))
| step_close_chunks s :
    chunksClosed s = false ->
    step s (setChunksClosed s)
| step_deliver s i r rest :
    (* [e.results <- r] meets the consumer *)
    workers s !! i = Some (WSend (r :: rest)) ->
    resultsCloses s = 0%nat ->
    panicked s = false ->
    step s (deliver r (setWorkers (<[i := WSend rest]> (workers s)) s))
| step_send_on_closed s i r rest :
    (* [e.results <- r] after the close: the send panics, [r] is lost *)
    workers s !! i = Some (WSend (r :: rest)) ->
    resultsCloses s <> 0%nat ->
    panicked s = false ->
    step s (setPanicked s)
| step_next s i :
    (* the body is over, back to [range e.chunks] *)
    workers s !! i = Some (WSend []) ->
    step s (setWorkers (<[i := WReceive]> (workers s)) s)
| step_return s i :
    (* [range e.chunks] sees the channel closed *)
    workers s !! i = Some WReceive ->
    chunksClosed s = true ->
    step s (setWorkers (<[i := WReturned]> (workers s)) s)
| step_done s i :
    (* [workerWg.Done()] *)
    workers s !! i = Some WReturned ->
    step s (setWorkerWg (workerWg s - 1) (setWorkers (<[i := WDone]> (workers s)) s))
| step_wake s :
    (* [workerWg.Wait()] returns *)
    closer s = CWait ->
    workerWg s = 0 ->
    step s (setCloser CSleep s)
| step_close_results s :
    (* the sleep is over: [close(e.ResultsChan())] *)
    closer s = CSleep ->
    step s (closeResults s).

(** A state from which nothing moves. *)
Definition terminal (s : System) : Prop := forall s', ~ step s s'.

(** What is left to do once the producer closed [e.chunks]. *)
Definition workerWeight (w : Worker) : nat :=
  match w with
  | WSend pending => 3 + 2 * length pending
  | WReceive => 2
  | WReturned => 1
  | WDone => 0
  end.

Definition closerWeight (c : Closer) : nat :=
  match c with CWait => 2 | CSleep => 1 | CClosed => 0 end.

Definition measure (s : System) : nat :=
  sum_list (workerWeight <$> workers s) + closerWeight (closer s)
  + (if panicked s then 0 else 1).

(** The results the workers hold and have not sent yet. *)
Definition pendingOf (w : Worker) : list ResultWithMetadata :=
  match w with WSend pending => pending | _ => [] end.

Definition inFlight (s : System) : list ResultWithMetadata :=
  concat (pendingOf <$> workers s).

(** The workers that have not executed [workerWg.Done()] yet. *)
Definition liveWeight (w : Worker) : nat :=
  match w with WDone => 0 | _ => 1 end.

Definition liveWorkers (s : System) : nat :=
  sum_list (liveWeight <$> workers s).

(** What every state of a run satisfies: no send met a closed channel;
    the wait group counts the live workers; the closing goroutine passes
    [Wait] only when no worker is live and closes once; every finding of
    a chunk drawn is delivered or still in the hands of its worker. *)
Definition invariant (s : System) : Prop :=
  panicked s = false /\
  workerWg s = Z.of_nat (liveWorkers s) /\
  match closer s with
  | CWait => resultsCloses s = 0%nat
  | CSleep => resultsCloses s = 0%nat /\ liveWorkers s = 0%nat
  | CClosed => resultsCloses s = 1%nat /\ liveWorkers s = 0%nat
  end /\
  delivered s ++ inFlight s ≡ₚ produced s.

End Engine.
End Engine.

(** ** pkg/sources/github

    Of this package only [github_test.go] is at hand, not [github.go].
    The functions below are modelled from the specification and from
    what the tests assert of them. *)
Module Github.
Import GoStrings.
Local Open Scope string_scope.
Local Open Scope list_scope.

(** Modelled from the spec: the error kinds of section 7 that the
    enumerator of github.go (absent) meets. *)
Inductive ApiError :=
| NotFound           (* the platform answers 404 *)
| RateLimited        (* [*github.RateLimitError] *)
| Transport.         (* a network or transport failure *)

(** Modelled from the spec: a paginated listing of github.go (absent),
    once every page was fetched: the pages in the order the platform
    served them, or the error that ended the call. *)
Definition Listing : Type := ApiError + list (list string).

(** Modelled from the spec: the platform API that github.go (absent)
    consumes (section 6), one field per endpoint the tests mock. *)
Record Platform := {
  orgRepos : string -> Listing;          (* GET /orgs/{org}/repos: clone_url *)
  userRepos : string -> Listing;         (* GET /users/{user}/repos: clone_url *)
  userGists : string -> Listing;         (* GET /users/{user}/gists: git_pull_url *)
  orgMembers : string -> Listing;        (* GET /orgs/{org}/members: login *)
  appInstallations : Listing;            (* GET /app/installations: account.login *)
  installationRepos : Listing;           (* GET /installation/repositories: clone_url *)
  authUserOrgs : Listing                 (* GET /user/orgs: name or login *)
}.

(** Modelled from the spec: the enumeration state, [Source] of github.go
    (absent), with the three fields the tests read.  The tests find the
    gists in [s.repos]: there is no gist field apart. *)
Record Source := {
  repos : list string;
  orgs : list string;
  members : list string
}.

(** [initTestSource(nil)]: a source that has enumerated nothing yet. *)
Definition newSource : Source := {| repos := []; orgs := []; members := [] |}.

Definition appendRepos (found : list string) (s : Source) : Source :=
  {| repos := repos s ++ found; orgs := orgs s; members := members s |}.

Definition appendOrgs (found : list string) (s : Source) : Source :=
  {| repos := repos s; orgs := orgs s ++ found; members := members s |}.

Definition appendMembers (found : list string) (s : Source) : Source :=
  {| repos := repos s; orgs := orgs s; members := members s ++ found |}.

(** Modelled from the spec: pagination, which is in github.go (absent).
    "Every listing call continues issuing next-page requests until the
    platform reports no further pages"; the items come out in page order,
    and a failed call yields its error and no item. *)
Definition paginate (l : Listing) : list string * option ApiError :=
  match l with
  | inl err => ([], Some err)
  | inr pages => (concat pages, None)
  end.

(** Modelled from the spec: addReposByOrg of github.go (absent).  "By
    organization: paginate the organization's repository listing; each
    page's clone_url-equivalent field is appended." *)
Definition addReposByOrg (p : Platform) (org : string) (s : Source)
    : Source * option ApiError :=
  let '(found, err) := paginate (orgRepos p org) in (appendRepos found s, err).

(** Modelled from the spec: addReposByUser of github.go (absent).  "By
    user: paginate the user's repository listing the same way." *)
Definition addReposByUser (p : Platform) (user : string) (s : Source)
    : Source * option ApiError :=
  let '(found, err) := paginate (userRepos p user) in (appendRepos found s, err).

(** Modelled from the spec: addGistsByUser of github.go (absent).
    "Gists by user: paginate the user's gist listing; each page's
    pull-URL-equivalent field is appended"; TestAddGistsByUser reads them
    back from [s.repos]. *)
Definition addGistsByUser (p : Platform) (user : string) (s : Source) : Source :=
  appendRepos (fst (paginate (userGists p user))) s.

(** Modelled from the spec: addOrgsByUser of github.go (absent); it lists
    the organizations of the authenticated user (TestAddOrgsByUser). *)
Definition addOrgsByUser (p : Platform) (user : string) (s : Source) : Source :=
  appendOrgs (fst (paginate (authUserOrgs p))) s.

(** Modelled from the spec: addReposByApp of github.go (absent).  "Call
    the installation's own repository listing endpoint to obtain the
    installation's authorized repositories directly." *)
Definition addReposByApp (p : Platform) (s : Source) : Source * option ApiError :=
  let '(found, err) := paginate (installationRepos p) in (appendRepos found s, err).

(** Modelled from the spec: the loop of addMembersByApp of github.go
    (absent) over the organizations [os], one member listing after the
    other; the first failure ends the call. *)
Fixpoint addMembersOfOrgs (p : Platform) (os : list string) (s : Source)
    : Source * option ApiError :=
  match os with
  | [] => (s, None)
  | org :: os' =>
      match paginate (orgMembers p org) with
      | (_, Some err) => (s, Some err)
      | (found, None) => addMembersOfOrgs p os' (appendMembers found s)
      end
  end.

(** Modelled from the spec: addMembersByApp of github.go (absent).  "List
    installations reachable by the app identity to discover member
    organizations; for each such organization, list its human members." *)
Definition addMembersByApp (p : Platform) (s : Source) : Source * option ApiError :=
  match paginate (appInstallations p) with
  | (_, Some err) => (s, Some err)
  | (installed, None) => addMembersOfOrgs p installed s
  end.

Section Normalize.

(** Modelled from the spec: two helpers of github.go (absent) that the
    spec leaves open, which entries are "already a fully-qualified
    hosting URL", and the normal form of such a URL. *)
Variable isRepoURL : string -> bool.
Variable normalizeURL : string -> string.

(** Modelled from the spec: the per-login resolution of normalizeRepos of
    github.go (absent), what the "by user" and "gists by user" listings
    find for a login; a failed listing is no data ("Not-Found: treated
    as an empty result for per-login resolution"). *)
Definition resolveLogin (p : Platform) (login : string) : list string :=
  fst (paginate (userRepos p login)) ++ fst (paginate (userGists p login)).

(** Modelled from the spec: the turn of normalizeRepos of github.go
    (absent) for one entry.  [kept] are the entries that stay where they
    were, [appended] what the pass adds behind them.
    - A URL stays and its normal form is appended
      (TestNormalizeRepos, first case).
    - A login that resolves is replaced by what was found, repositories
      before gists (second case).
    - A login for which nothing is found stays, and the empty string is
      appended as its placeholder (third case). *)
Definition normalizeEntry (p : Platform) (acc : list string * list string)
    (repo : string) : list string * list string :=
  let '(kept, appended) := acc in
  if isRepoURL repo then (kept ++ [repo], appended ++ [normalizeURL repo])
  else
    match resolveLogin p repo with
    | [] => (kept ++ [repo], appended ++ [EmptyString])
    | found => (kept, appended ++ found)
    end.

(** Modelled from the spec: normalizeRepos of github.go (absent).  "For
    every entry in the accumulated repo sequence that is not already a
    fully-qualified hosting URL, re-run by-user and gists-by-user
    enumeration treating the entry as a login, and append whatever is
    found (even if empty, an empty-string placeholder may be appended:
    this mirrors the resolve-or-mark-unresolved behavior verified by
    tests)."  It returns nothing, so no failure leaves it. *)
Definition normalizeRepos (p : Platform) (s : Source) : Source :=
  let '(kept, appended) := fold_left (normalizeEntry p) (repos s) ([], []) in
  {| repos := kept ++ appended; orgs := orgs s; members := members s |}.

End Normalize.

(** Modelled from the spec: the rate-limit signal that handleRateLimit of
    github.go (absent) reads off a response, the two headers when present
    and numeric. *)
Record Response := {
  rateRemaining : option Z;  (* x-ratelimit-remaining *)
  rateReset : option Z       (* x-ratelimit-reset, Unix seconds *)
}.

(** Modelled from the spec: handleRateLimit of github.go (absent).  The
    guard "must only recommend a wait when remaining == 0 and reset is in
    the future", "with a floor of no retry if the necessary headers are
    absent".  [now] is [time.Now().Unix()]; the error is only reported. *)
Definition handleRateLimit (now : Z) (errIn : option ApiError)
    (res : option Response) : bool :=
  match res with
  | None => false
  | Some r =>
      match rateRemaining r, rateReset r with
      | Some quota, Some resetTime => (quota =? 0)%Z && (now <? resetTime)%Z
      | _, _ => false
      end
  end.

(** The binding the tests run against: an entry with a slash is a URL,
    and a URL is normalized by giving it the [.git] suffix. *)
Definition testIsRepoURL (repo : string) : bool := Contains repo "/".

Definition testNormalizeURL (repo : string) : string :=
  if HasSuffix repo ".git" then repo else repo +:+ ".git".

(** The platform gock leaves when no mock matches: every call fails. *)
Definition offline : Platform :=
  {| orgRepos := fun _ => inl Transport;
     userRepos := fun _ => inl Transport;
     userGists := fun _ => inl Transport;
     orgMembers := fun _ => inl Transport;
     appInstallations := inl Transport;
     installationRepos := inl Transport;
     authUserOrgs := inl Transport |}.

(** The mocks of TestNormalizeRepos (second and third case). *)
Definition normalizeMocks : Platform :=
  {| orgRepos := fun _ => inl Transport;
     userRepos := fun user =>
       if String.eqb user "super-secret-user" then inr [["super-secret-repo"]]
       else if String.eqb user "not-found" then inl NotFound
       else inl Transport;
     userGists := fun user =>
       if String.eqb user "super-secret-user" then inr [["super-secret-gist"]]
       else if String.eqb user "not-found" then inl NotFound
       else inl Transport;
     orgMembers := fun _ => inl Transport;
     appInstallations := inl Transport;
     installationRepos := inl Transport;
     authUserOrgs := inl Transport |}.

(** The mocks of TestAddReposByOrg, TestAddReposByUser, TestAddGistsByUser,
    TestAddReposByApp and TestAddOrgsByUser. *)
Definition addMocks : Platform :=
  {| orgRepos := fun org =>
       if String.eqb org "super-secret-org" then inr [["super-secret-repo"]]
       else inl NotFound;
     userRepos := fun user =>
       if String.eqb user "super-secret-user" then inr [["super-secret-repo"]]
       else inl NotFound;
     userGists := fun user =>
       if String.eqb user "super-secret-user" then inr [["super-secret-gist"]]
       else inl NotFound;
     orgMembers := fun _ => inl Transport;
     appInstallations := inl Transport;
     installationRepos := inr [["ssr1"; "ssr2"]];
     authUserOrgs := inr [["sso1"; "sso2"]] |}.

(** Each of the three sequences of [s] is the beginning of that of [s']. *)
Definition extends (s s' : Source) : Prop :=
  repos s `prefix_of` repos s' /\
  orgs s `prefix_of` orgs s' /\
  members s `prefix_of` members s'.

(** A source that holds the repo entries [rs] and nothing else. *)
Definition withRepos (rs : list string) : Source :=
  {| repos := rs; orgs := []; members := [] |}.

(** The mocks of TestAddMembersByApp. *)
Definition membersMocks : Platform :=
  {| orgRepos := fun _ => inl Transport;
     userRepos := fun _ => inl Transport;
     userGists := fun _ => inl Transport;
     orgMembers := fun org =>
       if String.eqb org "super-secret-org" then inr [["ssm1"; "ssm2"; "ssm3"]]
       else inl NotFound;
     appInstallations := inr [["super-secret-org"]];
     installationRepos := inl Transport;
     authUserOrgs := inl Transport |}.

End Github.

(** ** A small engine to run the model on *)
Module Samples.
Import GoStrings Engine.
Local Open Scope string_scope.
Local Open Scope list_scope.

(** The metadata of a chunk is the path it was read from, a result is the
    name of the detector that matched, an error is its message. *)
Definition copyMetadata (chunk : @Chunk string) (result : string) : string * string :=
  (SourceMetadata chunk, result).

Definition plain : @Decoder string :=
  {| FromChunk := fun chunk => Some chunk |}.

Definition aws : @Detector string string :=
  {| Keywords := ["AKIA"]; FromData := fun _ _ => (["aws"], None) |}.

Definition github : @Detector string string :=
  {| Keywords := ["ghp_"]; FromData := fun _ _ => (["github"], None) |}.

Definition broken : @Detector string string :=
  {| Keywords := ["key"]; FromData := fun _ _ => ([], Some "connection refused") |}.

Definition sample : @Chunk string :=
  {| Data := "key=AKIA1234 token=ghp_5678"; SourceMetadata := "repo/config" |}.

(** One worker, one decoder, one verified detector. *)
Definition oneWorker : list (@EngineOption string string string) :=
  [WithConcurrency 1; WithDecoders [plain]; WithDetectors true [aws]].

(** Both partitions populated. *)
Definition bothPartitions : list (@EngineOption string string string) :=
  [WithDecoders [plain]; WithDetectors true [aws]; WithDetectors false [github]].

(** The same decoder twice in the chain. *)
Definition twoDecoders : list (@EngineOption string string string) :=
  [WithDecoders [plain; plain]; WithDetectors true [aws]].

Definition engineOf (options : list (@EngineOption string string string))
    : @Engine.Engine string string string :=
  startEngine 4 [plain] [aws] options.

Definition verifiedFirst (i : nat) : list bool := [true; false].
Definition unverifiedFirst (i : nat) : list bool := [false; true].
Definition verifiedOnly (i : nat) : list bool := [true].

(** The state in which the run of [oneWorker] on [sample] comes to rest. *)
Definition atRest : @System string string (string * string) string :=
  {| sysEngine := engineOf oneWorker;
     chunksClosed := true;
     workers := [WDone];
     workerWg := 0;
     closer := CClosed;
     resultsCloses := 1;
     delivered := [("repo/config", "aws")];
     produced := [("repo/config", "aws")];
     panicked := false |}.

End Samples.

(** ** Counting the calls of a trace *)
Module Traces.
Import Engine.

(** [s] holds bytes below 0x80 only. *)
Fixpoint isASCII (s : string) : bool :=
  match s with
  | EmptyString => true
  | String a s' => (nat_of_ascii a <? 128)%nat && isASCII s'
  end.

Section Traces.
Context {Metadata Result ResultWithMetadata error : Type}.

(** The calls of [FromData] a trace holds. *)
Definition isCall (ev : @Event Result ResultWithMetadata error) : bool :=
  match ev with EvFromData _ _ _ => true | _ => false end.

Definition callCount (t : list (@Event Result ResultWithMetadata error)) : nat :=
  length (filter (fun ev => isCall ev = true) t).

(** The detectors of a registry, both partitions together. *)
Definition registrySize (m : gmap bool (list (@Detector Result error))) : nat :=
  sum_list (length <$> (map_to_list m).*2).

End Traces.
End Traces.

(** ** More of the small engine *)
Module MoreSamples.
Import GoStrings Engine Samples.
Local Open Scope string_scope.
Local Open Scope list_scope.

(** A detector that declares no keyword, and one whose keyword is empty. *)
Definition mute : @Detector string string :=
  {| Keywords := []; FromData := fun _ _ => (["mute"], None) |}.

Definition always : @Detector string string :=
  {| Keywords := [EmptyString]; FromData := fun _ _ => (["always"], None) |}.

(** A chunk none of the sample keywords occurs in. *)
Definition dull : @Chunk string :=
  {| Data := "nothing to see"; SourceMetadata := "repo/readme" |}.

Definition withMute : list (@EngineOption string string string) :=
  [WithDecoders [plain]; WithDetectors true [mute; always]].

Definition withBroken : list (@EngineOption string string string) :=
  [WithDecoders [plain]; WithDetectors true [broken; aws]].

(** A [WithDetectors] that supplies no detector, and nothing else. *)
Definition emptyVerified : list (@EngineOption string string string) :=
  [WithDetectors true []].

Definition noWorkers : list (@EngineOption string string string) :=
  [WithConcurrency (-1); WithDecoders [plain]; WithDetectors true [aws]].

(** The run of [oneWorker] just after the producer closed [e.chunks]
    without sending a chunk, and one step later. *)
Definition closedEarly : @System string string (string * string) string :=
  setChunksClosed (Start 4 [plain] [aws] oneWorker).

Definition closedEarlyReturned : @System string string (string * string) string :=
  setWorkers [WReturned] closedEarly.

(** The run of [noWorkers] after the closing goroutine closed
    [e.results]. *)
Definition noWorkersClosed : @System string string (string * string) string :=
  closeResults (setCloser CSleep (Start 4 [plain] [aws] noWorkers)).

End MoreSamples.

(** * Properties of the embedding *)

(** ** Substring search *)
Module GoStringsFacts.
Import GoStrings.

Lemma append_String (a : ascii) (s t : string) :
  String a s +:+ t = String a (s +:+ t).
Proof. reflexivity. Qed.

Lemma HasPrefix_occurs (s prefix : string) :
  HasPrefix s prefix = true <-> exists post, s = prefix +:+ post.
Proof.
  revert s; induction prefix as [|b prefix IH]; intros s.
  - split; [intros _; exists s; reflexivity | reflexivity].
  - destruct s as [|a s]; simpl.
    + split; [discriminate | intros [post H]; discriminate].
    + destruct (Ascii.eqb a b) eqn:Hab.
      * apply Ascii.eqb_eq in Hab; subst b. rewrite IH.
        split; intros [post H]; exists post;
          rewrite append_String in *; congruence.
      * apply Ascii.eqb_neq in Hab.
        split; [discriminate |].
        intros [post H]. rewrite append_String in H. congruence.
Qed.

(** [Contains s substr] holds exactly when [substr] occurs in [s]. *)
Lemma Contains_occurs (s substr : string) :
  Contains s substr = true <-> exists pre post, s = pre +:+ substr +:+ post.
Proof.
  induction s as [|a s IH]; simpl.
  - rewrite orb_false_r, HasPrefix_occurs. split.
    + intros [post H]. exists EmptyString, post. exact H.
    + intros [pre [post H]]. destruct pre; [eauto | discriminate].
  - rewrite orb_true_iff, HasPrefix_occurs, IH. split.
    + intros [[post H] | [pre [post H]]].
      * exists EmptyString, post. exact H.
      * exists (String a pre), post. rewrite append_String. congruence.
    + intros [pre [post H]]. destruct pre as [|a' pre].
      * left. eauto.
      * right. exists pre, post. rewrite append_String in H. congruence.
Qed.

Lemma asciiToLower_app (s t : string) :
  asciiToLower (s +:+ t) = asciiToLower s +:+ asciiToLower t.
Proof.
  induction s as [|a s IH]; [reflexivity |].
  rewrite append_String. simpl. rewrite IH. reflexivity.
Qed.

(** A lower-cased string splits where the string it comes from splits. *)
Lemma asciiToLower_split (s u v : string) :
  asciiToLower s = u +:+ v ->
  exists s1 s2, s = s1 +:+ s2 /\ asciiToLower s1 = u /\ asciiToLower s2 = v.
Proof.
  revert s; induction u as [|b u IH]; intros s H.
  - exists EmptyString, s. auto.
  - rewrite append_String in H. destruct s as [|a s]; [discriminate |].
    simpl in H. injection H as Hb H.
    destruct (IH s H) as (s1 & s2 & -> & <- & <-).
    exists (String a s1), s2. rewrite append_String. simpl. rewrite Hb. auto.
Qed.

(** With ASCII lower-casing on both sides, [Contains] looks for a piece
    of the data that equals the keyword up to the case of its letters. *)
Lemma Contains_asciiToLower (data kw : string) :
  Contains (asciiToLower data) (asciiToLower kw) = true <->
  exists pre mid post,
    data = pre +:+ mid +:+ post /\ asciiToLower mid = asciiToLower kw.
Proof.
  rewrite Contains_occurs. split.
  - intros (u & v & H).
    apply asciiToLower_split in H as (pre & rest & -> & _ & H).
    apply asciiToLower_split in H as (mid & post & -> & H & _).
    exists pre, mid, post. auto.
  - intros (pre & mid & post & -> & H).
    exists (asciiToLower pre), (asciiToLower post).
    rewrite !asciiToLower_app, H. reflexivity.
Qed.

End GoStringsFacts.

(** ** The worker loop *)
Module WorkerFacts.
Import GoStrings GoStringsFacts Engine.

Section Worker.
Context {Metadata Result ResultWithMetadata error : Type}.
Variable ToLower : string -> string.
Variable CopyMetadata : @Chunk Metadata -> Result -> ResultWithMetadata.

Local Abbreviation Chunk := (@Engine.Chunk Metadata).
Local Abbreviation Decoder := (@Engine.Decoder Metadata).
Local Abbreviation Detector := (@Engine.Detector Result error).
Local Abbreviation Engine := (@Engine.Engine Metadata Result error).
Local Abbreviation Event := (@Engine.Event Result ResultWithMetadata error).
Local Abbreviation foundKeyword := (Engine.foundKeyword ToLower).
Local Abbreviation scanDetector := (Engine.scanDetector ToLower CopyMetadata).
Local Abbreviation rangeDetectors := (Engine.rangeDetectors ToLower CopyMetadata).
Local Abbreviation rangePartitions := (Engine.rangePartitions ToLower CopyMetadata).
Local Abbreviation scanDecoder := (Engine.scanDecoder ToLower CopyMetadata).
Local Abbreviation rangeDecoders := (Engine.rangeDecoders ToLower CopyMetadata).
Local Abbreviation processChunk := (Engine.processChunk ToLower CopyMetadata).
Local Abbreviation detectorWorker := (Engine.detectorWorker ToLower CopyMetadata).

(** The keyword loop stops at the first keyword found: it answers
    whether some keyword occurs. *)
Lemma foundKeyword_iff (dataLower : string) (keywords : list string) :
  foundKeyword dataLower keywords = true <->
  exists kw, kw ∈ keywords /\ Contains dataLower (ToLower kw) = true.
Proof.
  induction keywords as [|kw keywords IH]; simpl.
  - split; [discriminate | intros [kw [H _]]; inversion H].
  - destruct (Contains dataLower (ToLower kw)) eqn:Hkw.
    + split; [intros _; exists kw; split; [left | exact Hkw] | reflexivity].
    + rewrite IH. split; intros [kw' [Hin Hc]].
      * exists kw'. split; [right; exact Hin | exact Hc].
      * apply elem_of_cons in Hin as [-> | Hin]; [congruence | eauto].
Qed.

Lemma rangeDetectors_app chunk decoded dataLower verify (set1 set2 : list Detector) :
  rangeDetectors chunk decoded dataLower verify (set1 ++ set2) =
  rangeDetectors chunk decoded dataLower verify set1 ++
  rangeDetectors chunk decoded dataLower verify set2.
Proof.
  induction set1 as [|d set1 IH]; simpl; [reflexivity |].
  rewrite IH, app_assoc. reflexivity.
Qed.

Lemma rangeDetectors_concat chunk decoded dataLower verify (set : list Detector) :
  rangeDetectors chunk decoded dataLower verify set =
  concat (scanDetector chunk decoded dataLower verify <$> set).
Proof. induction set as [|d set IH]; csimpl; congruence. Qed.

Lemma rangePartitions_concat (e : Engine) chunk decoded dataLower keys :
  rangePartitions e chunk decoded dataLower keys =
  concat ((fun verify =>
             rangeDetectors chunk decoded dataLower verify
               (default [] (detectors e !! verify))) <$> keys).
Proof. induction keys as [|k keys IH]; csimpl; congruence. Qed.

Lemma rangeDecoders_concat (e : Engine) order i chunk (ds : list Decoder) :
  rangeDecoders e order i chunk ds =
  concat (imap (fun k decoder => scanDecoder e (order (i + k)%nat) chunk decoder) ds).
Proof.
  revert i; induction ds as [|d ds IH]; intros i; simpl; [reflexivity |].
  rewrite IH, Nat.add_0_r. do 2 f_equal.
  apply imap_ext. intros k x _. simpl. f_equal. f_equal. lia.
Qed.

Lemma rangeDecoders_app (e : Engine) order i chunk (ds1 ds2 : list Decoder) :
  rangeDecoders e order i chunk (ds1 ++ ds2) =
  rangeDecoders e order i chunk ds1 ++
  rangeDecoders e order (i + length ds1) chunk ds2.
Proof.
  revert i; induction ds1 as [|d ds1 IH]; intros i; simpl.
  - rewrite Nat.add_0_r. reflexivity.
  - rewrite IH, app_assoc. do 2 f_equal. lia.
Qed.

(** Two order functions that agree give the same trace. *)
Lemma rangeDecoders_ext (e : Engine) order1 order2 i chunk (ds : list Decoder) :
  (forall k, order1 k = order2 k) ->
  rangeDecoders e order1 i chunk ds = rangeDecoders e order2 i chunk ds.
Proof.
  intros Hext. revert i; induction ds as [|d ds IH]; intros i; simpl; [reflexivity |].
  rewrite Hext, IH. reflexivity.
Qed.

Lemma detectorWorker_ext (e : Engine) order1 order2 (chunks : list Chunk) :
  (forall j k, order1 j k = order2 j k) ->
  detectorWorker e order1 chunks = detectorWorker e order2 chunks.
Proof.
  revert order1 order2; induction chunks as [|c chunks IH]; intros o1 o2 Hext; simpl.
  - reflexivity.
  - unfold Engine.processChunk.
    rewrite (rangeDecoders_ext e (o1 0%nat) (o2 0%nat)) by (intros; apply Hext).
    f_equal. apply IH. intros; apply Hext.
Qed.

(** The worker goes through the chunks one after the other, whatever
    happened under the chunks before. *)
Lemma detectorWorker_app (e : Engine) order (before after : list Chunk) :
  detectorWorker e order (before ++ after) =
  detectorWorker e order before ++
  detectorWorker e (fun j => order (length before + j)%nat) after.
Proof.
  revert order; induction before as [|c before IH]; intros order; simpl.
  - reflexivity.
  - rewrite IH, app_assoc. reflexivity.
Qed.

Lemma sends_app (t1 t2 : list Event) : sends (t1 ++ t2) = sends t1 ++ sends t2.
Proof.
  induction t1 as [|ev t1 IH]; simpl; [reflexivity |].
  destruct ev; simpl; congruence.
Qed.

Lemma sends_concat (ts : list (list Event)) :
  sends (concat ts) = concat (sends <$> ts).
Proof.
  induction ts as [|t ts IH]; csimpl; [reflexivity |].
  rewrite sends_app, IH. reflexivity.
Qed.

(** *** Which calls a trace holds *)

Lemma call_in_scanDetector chunk decoded dataLower verify (detector d : Detector) v data :
  EvFromData d v data ∈ scanDetector chunk decoded dataLower verify detector <->
  d = detector /\ v = verify /\ data = Data decoded /\
  foundKeyword dataLower (Keywords detector) = true.
Proof.
  unfold Engine.scanDetector.
  destruct (Engine.foundKeyword ToLower dataLower (Keywords detector)); simpl.
  - destruct (FromData detector verify (Data decoded)) as [results [err|]].
    + rewrite elem_of_cons, list_elem_of_singleton. split.
      * intros [H | H]; [injection H as -> -> ->; auto | discriminate].
      * intros (-> & -> & -> & _). left; reflexivity.
    + rewrite elem_of_cons, list_elem_of_fmap. split.
      * intros [H | [r [H _]]]; [injection H as -> -> ->; auto | discriminate].
      * intros (-> & -> & -> & _). left; reflexivity.
  - split; [intros H; inversion H | intros (_ & _ & _ & H); discriminate].
Qed.

Lemma call_in_rangeDetectors chunk decoded dataLower verify (set : list Detector) d v data :
  EvFromData d v data ∈ rangeDetectors chunk decoded dataLower verify set <->
  d ∈ set /\ v = verify /\ data = Data decoded /\
  foundKeyword dataLower (Keywords d) = true.
Proof.
  induction set as [|detector set IH]; simpl.
  - split; [intros H; inversion H | intros [H _]; inversion H].
  - rewrite elem_of_app, call_in_scanDetector, IH, elem_of_cons. split.
    + intros [(-> & H) | (Hin & H)]; auto.
    + intros ([-> | Hin] & H); auto.
Qed.

Lemma call_in_rangePartitions (e : Engine) chunk decoded dataLower keys d v data :
  EvFromData d v data ∈ rangePartitions e chunk decoded dataLower keys <->
  v ∈ keys /\ d ∈ default [] (detectors e !! v) /\ data = Data decoded /\
  foundKeyword dataLower (Keywords d) = true.
Proof.
  induction keys as [|verify keys IH]; simpl.
  - split; [intros H; inversion H | intros [H _]; inversion H].
  - rewrite elem_of_app, call_in_rangeDetectors, IH, elem_of_cons. split.
    + intros [(Hin & -> & H) | (Hin & H)]; auto.
    + intros ([-> | Hin] & H1 & H2); auto.
Qed.

Lemma call_in_rangeDecoders (e : Engine) order i chunk (ds : list Decoder) d v data :
  EvFromData d v data ∈ rangeDecoders e order i chunk ds <->
  exists k decoder decoded,
    ds !! k = Some decoder /\ FromChunk decoder chunk = Some decoded /\
    v ∈ order (i + k)%nat /\ d ∈ default [] (detectors e !! v) /\
    data = Data decoded /\
    foundKeyword (ToLower (Data decoded)) (Keywords d) = true.
Proof.
  revert i; induction ds as [|decoder ds IH]; intros i; simpl.
  - split; [intros H; inversion H | intros (k & ? & ? & H & _); discriminate].
  - rewrite elem_of_app, IH. unfold Engine.scanDecoder. split.
    + intros [H | (k & dec & decoded & Hk & H)].
      * destruct (FromChunk decoder chunk) as [decoded|] eqn:Hdec; [| inversion H].
        apply call_in_rangePartitions in H.
        exists 0%nat, decoder, decoded. rewrite Nat.add_0_r. auto.
      * exists (S k), dec, decoded. replace (i + S k)%nat with (S i + k)%nat by lia.
        auto.
    + intros ([|k] & dec & decoded & Hk & Hdec & H).
      * left. simpl in Hk. injection Hk as ->. rewrite Hdec.
        apply call_in_rangePartitions. rewrite Nat.add_0_r in H. exact H.
      * right. exists k, dec, decoded.
        replace (S i + k)%nat with (i + S k)%nat by lia. auto.
Qed.

Lemma elem_of_rangeOrder (m : gmap bool (list Detector)) keys v :
  rangeOrder m keys -> v ∈ keys <-> is_Some (m !! v).
Proof.
  unfold rangeOrder, mapKeys. intros ->.
  rewrite list_elem_of_fmap. split.
  - intros [[k set] [-> H]]. apply elem_of_map_to_list in H. eauto.
  - intros [set H]. exists (v, set). split; [reflexivity |].
    apply elem_of_map_to_list. exact H.
Qed.


(** *** The keyword prefilter *)

(** C2.  For every chunk, every decoder that yields decoded content and
    every detector of every partition, [FromData] is called on the decoded
    payload exactly when one of the detector's keywords, lower-cased,
    occurs in the lower-cased payload; a detector none of whose keywords
    occurs is passed over without a call. *)
Theorem C2_FromData_called_iff_keyword_occurs (e : Engine) order chunk
    (detector : Detector) verify data :
  validOrder e order ->
  EvFromData detector verify data ∈ processChunk e order chunk <->
  exists decoder decoded detectorsSet kw pre post,
    decoder ∈ decoders e /\ FromChunk decoder chunk = Some decoded /\
    data = Data decoded /\
    detectors e !! verify = Some detectorsSet /\ detector ∈ detectorsSet /\
    kw ∈ Keywords detector /\
    ToLower data = pre +:+ ToLower kw +:+ post.
Proof.
  intros Hvalid. unfold Engine.processChunk.
  rewrite call_in_rangeDecoders. split.
  - intros (k & decoder & decoded & Hk & Hdec & Hv & Hd & -> & Hfound).
    apply (elem_of_rangeOrder _ _ _ (Hvalid _)) in Hv as [set Hset].
    rewrite Hset in Hd. simpl in Hd.
    apply foundKeyword_iff in Hfound as (kw & Hkw & Hc).
    apply Contains_occurs in Hc as (pre & post & Hc).
    exists decoder, decoded, set, kw, pre, post.
    repeat split; try assumption. eapply list_elem_of_lookup_2; eassumption.
  - intros (decoder & decoded & set & kw & pre & post &
            Hin & Hdec & -> & Hset & Hd & Hkw & Hc).
    apply list_elem_of_lookup_1 in Hin as [k Hk].
    exists k, decoder, decoded. repeat split; try assumption.
    + apply (elem_of_rangeOrder _ _ _ (Hvalid _)). eauto.
    + rewrite Hset. exact Hd.
    + apply foundKeyword_iff. exists kw. split; [exact Hkw |].
      apply Contains_occurs. eauto.
Qed.

(** *** A detector that fails *)

Lemma rangePartitions_app (e : Engine) chunk decoded dataLower (keys1 keys2 : list bool) :
  rangePartitions e chunk decoded dataLower (keys1 ++ keys2) =
  rangePartitions e chunk decoded dataLower keys1 ++
  rangePartitions e chunk decoded dataLower keys2.
Proof.
  induction keys1 as [|k keys1 IH]; simpl; [reflexivity |].
  rewrite IH, app_assoc. reflexivity.
Qed.

(** C5.  When [FromData] of a registered detector that passed the
    prefilter returns an error under a chunk, the worker makes that call,
    logs the error and sends nothing for that detector, and everything
    else under the chunk goes on as ever: the trace of the chunk is the
    scan of the decoders before, of the partitions visited before and of
    the detectors before it in its partition, then the call and the
    logged error, then the scan of the detectors after it, of the
    partitions after and of the decoders after.  So the error is in the
    trace, every other detector of the partition that passes the prefilter
    is called, and the worker goes on to the chunks that follow. *)
Theorem C5_failed_detector_is_logged_and_skipped (e : Engine) order chunk
    (ds1 ds2 : list Decoder) (decoder : Decoder) decoded
    (keys1 keys2 : list bool) verify
    (pre post : list Detector) (detector : Detector) results err :
  decoders e = ds1 ++ decoder :: ds2 ->
  FromChunk decoder chunk = Some decoded ->
  order (length ds1) = keys1 ++ verify :: keys2 ->
  detectors e !! verify = Some (pre ++ detector :: post) ->
  foundKeyword (ToLower (Data decoded)) (Keywords detector) = true ->
  FromData detector verify (Data decoded) = (results, Some err) ->
  scanDetector chunk decoded (ToLower (Data decoded)) verify detector =
    [EvFromData detector verify (Data decoded); EvLogError err] /\
  processChunk e order chunk =
    rangeDecoders e order 0 chunk ds1 ++
    rangePartitions e chunk decoded (ToLower (Data decoded)) keys1 ++
    rangeDetectors chunk decoded (ToLower (Data decoded)) verify pre ++
    [EvFromData detector verify (Data decoded); EvLogError err] ++
    rangeDetectors chunk decoded (ToLower (Data decoded)) verify post ++
    rangePartitions e chunk decoded (ToLower (Data decoded)) keys2 ++
    rangeDecoders e order (S (length ds1)) chunk ds2 /\
  EvLogError err ∈ processChunk e order chunk /\
  (forall d, d ∈ pre ++ post ->
     foundKeyword (ToLower (Data decoded)) (Keywords d) = true ->
     EvFromData d verify (Data decoded) ∈ processChunk e order chunk) /\
  forall worder before after,
    worder (length before) = order ->
    detectorWorker e worder (before ++ chunk :: after) =
      detectorWorker e worder before ++
      processChunk e order chunk ++
      detectorWorker e (fun j => worder (S (length before + j))) after.
Proof.
  intros Hdecs Hdec Hord Hset Hfound Herr.
  assert (Hscan : scanDetector chunk decoded (ToLower (Data decoded)) verify detector =
                  [EvFromData detector verify (Data decoded); EvLogError err]).
  { unfold Engine.scanDetector. rewrite Hfound, Herr. reflexivity. }
  assert (Htrace : processChunk e order chunk =
    rangeDecoders e order 0 chunk ds1 ++
    rangePartitions e chunk decoded (ToLower (Data decoded)) keys1 ++
    rangeDetectors chunk decoded (ToLower (Data decoded)) verify pre ++
    [EvFromData detector verify (Data decoded); EvLogError err] ++
    rangeDetectors chunk decoded (ToLower (Data decoded)) verify post ++
    rangePartitions e chunk decoded (ToLower (Data decoded)) keys2 ++
    rangeDecoders e order (S (length ds1)) chunk ds2).
  { unfold Engine.processChunk. rewrite Hdecs, rangeDecoders_app.
    cbn [Engine.rangeDecoders]. unfold Engine.scanDecoder at 1.
    rewrite Hdec, Nat.add_0_l, Hord, rangePartitions_app.
    cbn [Engine.rangePartitions]. rewrite Hset.
    change (default [] (Some (pre ++ detector :: post))) with (pre ++ detector :: post).
    rewrite rangeDetectors_app. cbn [Engine.rangeDetectors]. rewrite Hscan.
    rewrite <- !app_assoc. reflexivity. }
  split; [exact Hscan |]. split; [exact Htrace |]. split; [| split].
  - rewrite Htrace, !elem_of_app. do 3 right. left. right. left.
  - intros d Hd Hfd. rewrite Htrace, !elem_of_app.
    apply elem_of_app in Hd as [Hd | Hd].
    + do 2 right. left. apply call_in_rangeDetectors. auto.
    + do 4 right. left. apply call_in_rangeDetectors. auto.
  - intros worder before after Hw. rewrite detectorWorker_app. simpl.
    rewrite Nat.add_0_r, Hw. do 2 f_equal.
    apply detectorWorker_ext. intros j k. f_equal. lia.
Qed.

(** *** The decoder chain *)

(** C10.  Every decoder of the chain is applied to the chunk itself,
    whatever the decoders before it yielded: the trace of a chunk is the
    concatenation, decoder by decoder, of a full scan of what that decoder
    yields.  With the same visiting order under every decoder, the chunk
    is scanned once for each decoder that yields content. *)
Theorem C10_every_decoder_scans_the_chunk (e : Engine) order chunk :
  processChunk e order chunk =
    concat (imap (fun i decoder => scanDecoder e (order i) chunk decoder)
                 (decoders e)) /\
  forall keys,
    (forall i, order i = keys) ->
    processChunk e order chunk =
      concat ((fun decoded =>
                 rangePartitions e chunk decoded (ToLower (Data decoded)) keys)
              <$> omap (fun decoder => FromChunk decoder chunk) (decoders e)).
Proof.
  unfold Engine.processChunk. split.
  - rewrite rangeDecoders_concat. reflexivity.
  - intros keys Hkeys. generalize 0%nat.
    induction (decoders e) as [|decoder ds IH]; intros i; simpl; [reflexivity |].
    rewrite IH, Hkeys. unfold Engine.scanDecoder.
    destruct (FromChunk decoder chunk); reflexivity.
Qed.

(** *** The order of the findings *)

Lemma rangePartitions_Permutation (e : Engine) chunk decoded dataLower keys1 keys2 :
  keys1 ≡ₚ keys2 ->
  rangePartitions e chunk decoded dataLower keys1 ≡ₚ
  rangePartitions e chunk decoded dataLower keys2.
Proof.
  intros H. rewrite !rangePartitions_concat. rewrite H. reflexivity.
Qed.

Lemma rangeDecoders_Permutation (e : Engine) order1 order2 i chunk (ds : list Decoder) :
  validOrder e order1 -> validOrder e order2 ->
  rangeDecoders e order1 i chunk ds ≡ₚ rangeDecoders e order2 i chunk ds.
Proof.
  intros H1 H2. revert i; induction ds as [|d ds IH]; intros i; simpl; [reflexivity |].
  apply Permutation_app; [| apply IH].
  unfold Engine.scanDecoder. destruct (FromChunk d chunk); [| reflexivity].
  apply rangePartitions_Permutation.
  unfold validOrder, rangeOrder in *. rewrite H1, H2. reflexivity.
Qed.

Lemma sends_Permutation (t1 t2 : list Event) : t1 ≡ₚ t2 -> sends t1 ≡ₚ sends t2.
Proof.
  induction 1 as [|ev t1 t2 _ IH|ev1 ev2 t|t1 t2 t3 _ IH1 _ IH2]; simpl.
  - reflexivity.
  - destruct ev; simpl; [exact IH | exact IH | apply Permutation_skip; exact IH].
  - destruct ev1, ev2; simpl; try reflexivity. apply Permutation_swap.
  - etransitivity; eassumption.
Qed.

(** A map with at most one key leaves [range] one order only. *)
Lemma rangeOrder_unique (m : gmap bool (list Detector)) keys1 keys2 :
  (size m <= 1)%nat -> rangeOrder m keys1 -> rangeOrder m keys2 -> keys1 = keys2.
Proof.
  unfold rangeOrder, mapKeys. intros Hsize H1 H2.
  rewrite <- length_map_to_list in Hsize.
  destruct (map_to_list m) as [|kv [|kv' l]]; simpl in *; [| | lia].
  - apply Permutation_nil_r in H1, H2. congruence.
  - apply Permutation_singleton_r in H1, H2. congruence.
Qed.

(** C8 (amended).  The findings of a chunk leave in the order of the
    iteration: decoder by decoder, under a decoder partition by partition
    in the order the map is visited, in a partition detector by detector
    in the order of the slice.  The order in which the two partitions are
    visited is not fixed: two runs on the same chunk and registry send the
    same findings, in the same order when the registry has at most one
    partition. *)
Theorem C8_findings_follow_the_iteration (e : Engine) order1 order2 chunk :
  validOrder e order1 -> validOrder e order2 ->
  sends (processChunk e order1 chunk) =
    concat (imap (fun i decoder =>
      match FromChunk decoder chunk with
      | None => []
      | Some decoded =>
          concat ((fun verify =>
            concat ((fun detector =>
                       sends (scanDetector chunk decoded (ToLower (Data decoded))
                                verify detector))
                    <$> default [] (detectors e !! verify)))
            <$> order1 i)
      end) (decoders e)) /\
  sends (processChunk e order1 chunk) ≡ₚ sends (processChunk e order2 chunk) /\
  ((size (detectors e) <= 1)%nat ->
   processChunk e order1 chunk = processChunk e order2 chunk).
Proof.
  intros H1 H2. split; [| split].
  - unfold Engine.processChunk. rewrite rangeDecoders_concat, sends_concat.
    f_equal. rewrite fmap_imap. apply imap_ext. intros i decoder _. simpl.
    unfold Engine.scanDecoder. destruct (FromChunk decoder chunk); [| reflexivity].
    rewrite rangePartitions_concat, sends_concat, <- list_fmap_compose.
    f_equal. apply list_fmap_ext. intros _ verify _. simpl.
    rewrite rangeDetectors_concat, sends_concat, <- list_fmap_compose.
    reflexivity.
  - apply sends_Permutation, rangeDecoders_Permutation; assumption.
  - intros Hsize. unfold Engine.processChunk. apply rangeDecoders_ext.
    intros k. eapply rangeOrder_unique; [exact Hsize | apply H1 | apply H2].
Qed.

End Worker.

(** *** The theorems on the sample engine *)
Import Samples.

Lemma validOrder_verifiedOnly : validOrder (engineOf oneWorker) verifiedOnly.
Proof. intros i. unfold rangeOrder. vm_compute. reflexivity. Qed.

Lemma validOrder_twoDecoders : validOrder (engineOf twoDecoders) verifiedOnly.
Proof. intros i. unfold rangeOrder. vm_compute. reflexivity. Qed.

Lemma validOrder_verifiedFirst : validOrder (engineOf bothPartitions) verifiedFirst.
Proof. intros i. unfold rangeOrder. vm_compute. apply Permutation_swap. Qed.

Lemma validOrder_unverifiedFirst : validOrder (engineOf bothPartitions) unverifiedFirst.
Proof. intros i. unfold rangeOrder. vm_compute. reflexivity. Qed.

(** The sample chunk holds [akia] once lower-cased: [aws] is called. *)
Lemma C2_witness :
  validOrder (engineOf oneWorker) verifiedOnly /\
  (EvFromData aws true (Data sample) ∈
     processChunk asciiToLower copyMetadata (engineOf oneWorker) verifiedOnly sample <->
   exists decoder decoded detectorsSet kw pre post,
     decoder ∈ decoders (engineOf oneWorker) /\
     FromChunk decoder sample = Some decoded /\
     Data sample = Data decoded /\
     detectors (engineOf oneWorker) !! true = Some detectorsSet /\
     aws ∈ detectorsSet /\
     kw ∈ Keywords aws /\
     asciiToLower (Data sample) = pre +:+ asciiToLower kw +:+ post).
Proof.
  split; [exact validOrder_verifiedOnly |].
  apply (C2_FromData_called_iff_keyword_occurs asciiToLower copyMetadata).
  exact validOrder_verifiedOnly.
Defined.

(** [broken] finds its keyword in the sample and fails; the worker logs
    the error and goes on to [aws], whose finding is sent. *)
Lemma C5_witness :
  decoders (engineOf MoreSamples.withBroken) = [] ++ plain :: [] /\
  FromChunk plain sample = Some sample /\
  verifiedOnly (length (@nil (@Decoder string))) = [] ++ true :: [] /\
  detectors (engineOf MoreSamples.withBroken) !! true = Some ([] ++ broken :: [aws]) /\
  foundKeyword asciiToLower (asciiToLower (Data sample)) (Keywords broken) = true /\
  FromData broken true (Data sample) = ([], Some "connection refused"%string) /\
  processChunk asciiToLower copyMetadata (engineOf MoreSamples.withBroken)
    verifiedOnly sample =
  [EvFromData broken true (Data sample); EvLogError "connection refused"%string;
   EvFromData aws true (Data sample); EvSend ("repo/config", "aws")%string].
Proof.
  assert (H1 : decoders (engineOf MoreSamples.withBroken) = [] ++ plain :: [])
    by reflexivity.
  assert (H4 : detectors (engineOf MoreSamples.withBroken) !! true =
               Some ([] ++ broken :: [aws])) by (vm_compute; reflexivity).
  assert (H5 : foundKeyword asciiToLower (asciiToLower (Data sample))
                 (Keywords broken) = true) by (vm_compute; reflexivity).
  split; [exact H1 |]. split; [reflexivity |]. split; [reflexivity |].
  split; [exact H4 |]. split; [exact H5 |]. split; [reflexivity |].
  pose proof (C5_failed_detector_is_logged_and_skipped asciiToLower copyMetadata
                (engineOf MoreSamples.withBroken) verifiedOnly sample [] [] plain
                sample [] [] true [] [aws] broken [] "connection refused"%string
                H1 eq_refl eq_refl H4 H5 eq_refl) as (_ & Htrace & _).
  rewrite Htrace. vm_compute. reflexivity.
Defined.

(** With the same decoder twice in the chain the finding leaves twice. *)
Lemma C10_witness :
  (forall i, verifiedOnly i = [true]) /\
  sends (processChunk asciiToLower copyMetadata (engineOf twoDecoders)
           verifiedOnly sample) =
    [("repo/config", "aws"); ("repo/config", "aws")]%string.
Proof.
  split; [reflexivity |].
  rewrite (proj2 (C10_every_decoder_scans_the_chunk asciiToLower copyMetadata
                    (engineOf twoDecoders) verifiedOnly sample) [true]);
    [vm_compute; reflexivity | reflexivity].
Defined.

(** C8 as stated fails: with both partitions populated, the two orders in
    which [range] may visit the map send the two findings of the sample
    in opposite orders. *)
Lemma C8_counterexample :
  validOrder (engineOf bothPartitions) verifiedFirst /\
  validOrder (engineOf bothPartitions) unverifiedFirst /\
  sends (processChunk asciiToLower copyMetadata (engineOf bothPartitions)
           verifiedFirst sample) =
    [("repo/config", "aws"); ("repo/config", "github")]%string /\
  sends (processChunk asciiToLower copyMetadata (engineOf bothPartitions)
           unverifiedFirst sample) =
    [("repo/config", "github"); ("repo/config", "aws")]%string /\
  sends (processChunk asciiToLower copyMetadata (engineOf bothPartitions)
           verifiedFirst sample) <>
  sends (processChunk asciiToLower copyMetadata (engineOf bothPartitions)
           unverifiedFirst sample).
Proof.
  split; [exact validOrder_verifiedFirst |].
  split; [exact validOrder_unverifiedFirst |].
  split; [vm_compute; reflexivity |].
  split; [vm_compute; reflexivity |].
  vm_compute. discriminate.
Qed.

Lemma C8_witness :
  validOrder (engineOf bothPartitions) verifiedFirst /\
  validOrder (engineOf bothPartitions) unverifiedFirst /\
  sends (processChunk asciiToLower copyMetadata (engineOf bothPartitions)
           verifiedFirst sample) ≡ₚ
  sends (processChunk asciiToLower copyMetadata (engineOf bothPartitions)
           unverifiedFirst sample).
Proof.
  split; [exact validOrder_verifiedFirst |].
  split; [exact validOrder_unverifiedFirst |].
  apply (C8_findings_follow_the_iteration asciiToLower copyMetadata
           (engineOf bothPartitions) verifiedFirst unverifiedFirst sample
           validOrder_verifiedFirst validOrder_unverifiedFirst).
Defined.

End WorkerFacts.

(** ** Startup *)
Module StartFacts.
Import Engine.

Section Startup.
Context {Metadata Result error : Type}.
Variable NumCPU : Z.
Variable DefaultDecoders : list (@Decoder Metadata).
Variable DefaultDetectors : list (@Detector Result error).

Local Abbreviation Engine := (@Engine.Engine Metadata Result error).
Local Abbreviation EngineOption := (@Engine.EngineOption Metadata Result error).
Local Abbreviation startEngine :=
  (Engine.startEngine NumCPU DefaultDecoders DefaultDetectors).
Local Abbreviation workerCount := (@Engine.workerCount Metadata Result error NumCPU).

(** The three defaults do not touch each other's field. *)
Lemma startEngine_fields (options : list EngineOption) :
  concurrency (startEngine options) =
    (if concurrency (applyOptions options) =? 0 then NumCPU
     else concurrency (applyOptions options)) /\
  decoders (startEngine options) =
    (if (length (decoders (applyOptions options)) =? 0)%nat then DefaultDecoders
     else decoders (applyOptions options)) /\
  detectors (startEngine options) =
    (if (size (detectors (applyOptions options)) =? 0)%nat
     then <[true := DefaultDetectors]> ∅
     else detectors (applyOptions options)).
Proof.
  unfold Engine.startEngine, defaultDetectors, defaultDecoders, defaultConcurrency.
  destruct (concurrency (applyOptions options) =? 0); simpl;
    destruct (length (decoders (applyOptions options)) =? 0)%nat; simpl;
    destruct (size (detectors (applyOptions options)) =? 0)%nat; simpl; auto.
Qed.

Lemma applyOptions_last (options : list EngineOption) (option : EngineOption) :
  applyOptions (options ++ [option]) = option (applyOptions options).
Proof. unfold applyOptions. rewrite fold_left_app. reflexivity. Qed.

(** C6 (amended).  After the options ran: a concurrency of zero becomes
    the number of CPUs of the host, which is then the number of workers;
    an empty decoder list becomes the default decoders; an empty detector
    map becomes the map whose only key is [true], bound to the default
    detectors.  What the options configured is kept; in particular a
    [WithDetectors] that runs last, also one that supplies no detector,
    leaves its partition in the map, and no default detector is
    installed. *)
Theorem C6_start_installs_the_defaults (options : list EngineOption) :
  (concurrency (applyOptions options) = 0 ->
   concurrency (startEngine options) = NumCPU /\
   workerCount options = Z.to_nat NumCPU) /\
  (decoders (applyOptions options) = [] ->
   decoders (startEngine options) = DefaultDecoders) /\
  (detectors (applyOptions options) = ∅ ->
   detectors (startEngine options) !! true = Some DefaultDetectors /\
   detectors (startEngine options) !! false = None /\
   size (detectors (startEngine options)) = 1%nat) /\
  (concurrency (applyOptions options) <> 0 ->
   concurrency (startEngine options) = concurrency (applyOptions options)) /\
  (decoders (applyOptions options) <> [] ->
   decoders (startEngine options) = decoders (applyOptions options)) /\
  (detectors (applyOptions options) <> ∅ ->
   detectors (startEngine options) = detectors (applyOptions options)) /\
  (forall verify d,
     detectors (startEngine (options ++ [WithDetectors verify d])) =
       <[verify := default [] (detectors (applyOptions options) !! verify) ++ d]>
         (detectors (applyOptions options))).
Proof.
  destruct (startEngine_fields options) as (Hc & Hd & Hm).
  split; [| split; [| split; [| split; [| split; [| split]]]]].
  - intros H. split.
    + rewrite Hc, H. reflexivity.
    + unfold Engine.workerCount, defaultConcurrency. rewrite H. reflexivity.
  - intros H. rewrite Hd, H. reflexivity.
  - intros H. rewrite Hm, H. repeat split.
  - intros H. rewrite Hc. apply Z.eqb_neq in H. rewrite H. reflexivity.
  - intros H. rewrite Hd.
    destruct (decoders (applyOptions options)); [congruence | reflexivity].
  - intros H. rewrite Hm.
    destruct (Nat.eqb_spec (size (detectors (applyOptions options))) 0) as [E|E];
      [| reflexivity].
    apply map_size_empty_inv in E. congruence.
  - intros verify d.
    destruct (startEngine_fields (options ++ [WithDetectors verify d]))
      as (_ & _ & Hlast).
    rewrite Hlast, applyOptions_last. simpl.
    destruct (Nat.eqb_spec
      (size (<[verify := default [] (detectors (applyOptions options) !! verify) ++ d]>
               (detectors (applyOptions options)))) 0) as [E|E]; [| reflexivity].
    apply map_size_empty_inv in E. exfalso. exact (insert_non_empty _ _ _ E).
Qed.

End Startup.

(** With no option at all, [Start] installs the three defaults. *)
Lemma C6_witness :
  concurrency (applyOptions (@nil (@EngineOption string string string))) = 0 /\
  concurrency (startEngine 4 [Samples.plain] [Samples.aws] []) = 4 /\
  workerCount 4 (@nil (@EngineOption string string string)) = 4%nat /\
  decoders (startEngine 4 [Samples.plain] [Samples.aws] []) = [Samples.plain] /\
  detectors (startEngine 4 [Samples.plain] [Samples.aws] []) !! true =
    Some [Samples.aws] /\
  detectors (startEngine 4 [Samples.plain] [Samples.aws] []) !! false = None.
Proof.
  pose proof (C6_start_installs_the_defaults 4 [Samples.plain] [Samples.aws] [])
    as (Hc & Hd & Hm & _).
  destruct (Hc eq_refl) as [Hc1 Hc2].
  destruct (Hm eq_refl) as (Hm1 & Hm2 & _).
  split; [reflexivity |].
  split; [exact Hc1 |]. split; [exact Hc2 |]. split; [exact (Hd eq_refl) |].
  split; [exact Hm1 | exact Hm2].
Defined.

(** C6 as stated fails: [WithDetectors] called without a detector
    supplies no detector, yet it creates its partition, the detector map
    is not empty, and [Start] installs no default: the verified partition
    holds no detector and the engine does nothing with the sample. *)
Lemma C6_counterexample :
  Traces.registrySize (detectors (applyOptions MoreSamples.emptyVerified)) = 0%nat /\
  detectors (startEngine 4 [Samples.plain] [Samples.aws] MoreSamples.emptyVerified)
    !! true = Some [] /\
  detectors (startEngine 4 [Samples.plain] [Samples.aws] MoreSamples.emptyVerified)
    !! true <> Some [Samples.aws] /\
  processChunk GoStrings.asciiToLower Samples.copyMetadata
    (startEngine 4 [Samples.plain] [Samples.aws] MoreSamples.emptyVerified)
    Samples.verifiedOnly Samples.sample = [].
Proof.
  split; [vm_compute; reflexivity |].
  split; [vm_compute; reflexivity |].
  split; [vm_compute; discriminate |].
  vm_compute. reflexivity.
Qed.

End StartFacts.

(** ** Shutdown *)
Module ShutdownFacts.
Import Engine.

Section Lists.
Context {A B : Type}.

(** Replacing one element of a list changes one summand. *)
Lemma sum_list_insert (f : A -> nat) (l : list A) i x y :
  l !! i = Some x ->
  exists rest, sum_list (f <$> l) = (rest + f x)%nat /\
               sum_list (f <$> <[i := y]> l) = (rest + f y)%nat.
Proof.
  revert i; induction l as [|a l IH]; intros [|i] H; csimpl in *; try discriminate.
  - injection H as ->. exists (sum_list (f <$> l)). split; lia.
  - destruct (IH i H) as (rest & -> & ->). exists (f a + rest)%nat. split; lia.
Qed.

(** Replacing one element of a list changes one segment. *)
Lemma concat_insert (g : A -> list B) (l : list A) i x y :
  l !! i = Some x ->
  exists l1 l2, concat (g <$> l) = l1 ++ g x ++ l2 /\
                concat (g <$> <[i := y]> l) = l1 ++ g y ++ l2.
Proof.
  revert i; induction l as [|a l IH]; intros [|i] H; csimpl in *; try discriminate.
  - injection H as ->. exists [], (concat (g <$> l)). split; reflexivity.
  - destruct (IH i H) as (l1 & l2 & -> & ->). exists (g a ++ l1), l2.
    rewrite <- !app_assoc. split; reflexivity.
Qed.

End Lists.

Section Shutdown.
Context {Metadata Result ResultWithMetadata error : Type}.
Variable ToLower : string -> string.
Variable NumCPU : Z.
Variable CopyMetadata : @Chunk Metadata -> Result -> ResultWithMetadata.
Variable DefaultDecoders : list (@Decoder Metadata).
Variable DefaultDetectors : list (@Detector Result error).

Local Abbreviation System := (@Engine.System Metadata Result ResultWithMetadata error).
Local Abbreviation Worker := (@Engine.Worker ResultWithMetadata).
Local Abbreviation EngineOption := (@Engine.EngineOption Metadata Result error).
Local Abbreviation step := (Engine.step ToLower CopyMetadata).
Local Abbreviation terminal := (Engine.terminal ToLower CopyMetadata).
Local Abbreviation Start :=
  (@Engine.Start Metadata Result ResultWithMetadata error
     NumCPU DefaultDecoders DefaultDetectors).

Lemma sum_list_replicate_0 (f : Worker -> nat) (w : Worker) n :
  sum_list (f <$> replicate n w) = (n * f w)%nat.
Proof. induction n as [|n IH]; csimpl; [reflexivity | rewrite IH; reflexivity]. Qed.

Lemma inFlight_replicate_WReceive n :
  concat (pendingOf <$> replicate n (@WReceive ResultWithMetadata)) = [].
Proof. induction n as [|n IH]; csimpl; [reflexivity | exact IH]. Qed.

(** No live worker: every worker is done, and none holds a result. *)
Lemma liveWorkers_0_done (ws : list Worker) i w :
  sum_list (liveWeight <$> ws) = 0%nat -> ws !! i = Some w -> w = WDone.
Proof.
  intros Hlive Hi.
  destruct (sum_list_insert liveWeight ws i w w Hi) as (rest & H & _).
  rewrite H in Hlive. destruct w; simpl in Hlive; try lia. reflexivity.
Qed.

Lemma liveWorkers_0_Forall (ws : list Worker) :
  sum_list (liveWeight <$> ws) = 0%nat -> Forall (fun w => w = WDone) ws.
Proof.
  intros H. apply Forall_lookup. intros i w Hi.
  eapply liveWorkers_0_done; eassumption.
Qed.

Lemma liveWorkers_0_inFlight (ws : list Worker) :
  sum_list (liveWeight <$> ws) = 0%nat -> concat (pendingOf <$> ws) = [].
Proof.
  induction ws as [|w ws IH]; csimpl; [reflexivity |].
  intros H. destruct w; simpl in *; try lia. apply IH. exact H.
Qed.

(** Either every worker is done or one of them is not. *)
Lemma live_or_done (ws : list Worker) :
  sum_list (liveWeight <$> ws) = 0%nat \/
  exists i w, ws !! i = Some w /\ w <> WDone.
Proof.
  induction ws as [|w ws [IH | (i & w' & Hi & Hw)]].
  - left. reflexivity.
  - destruct w; [right | right | right | left; exact IH];
      (eexists 0%nat, _; split; [reflexivity | discriminate]).
  - right. exists (S i), w'. split; assumption.
Qed.

Lemma invariant_Start (options : list EngineOption) : invariant (Start options).
Proof.
  unfold invariant, Engine.Start, liveWorkers, inFlight; simpl.
  rewrite sum_list_replicate_0, inFlight_replicate_WReceive. simpl.
  repeat split; [f_equal; lia | reflexivity].
Qed.

Lemma invariant_step (s s' : System) : invariant s -> step s s' -> invariant s'.
Proof.
  unfold invariant, liveWorkers, inFlight.
  intros (Hpanic & Hwg & Hcloser & Hperm) Hstep.
  destruct Hstep as [s i chunk order Hopen Hi Hvalid | s Hopen
                    | s i r rest Hi Hcl Hnp | s i r rest Hi Hcl Hnp
                    | s i Hi | s i Hi Hclosed | s i Hi | s Hc Hz | s Hc]; simpl.
  - destruct (sum_list_insert liveWeight _ i _
                (WSend (sends (Engine.processChunk ToLower CopyMetadata
                                 (sysEngine s) order chunk))) Hi)
      as (n & Hn & ->).
    destruct (concat_insert pendingOf _ i _
                (WSend (sends (Engine.processChunk ToLower CopyMetadata
                                 (sysEngine s) order chunk))) Hi)
      as (l1 & l2 & Hl & ->).
    rewrite Hn in *. rewrite Hl in Hperm. simpl in *.
    repeat split; try assumption.
    rewrite <- Hperm.
    rewrite !app_assoc. rewrite <- (app_assoc (delivered s ++ l1)).
    rewrite (Permutation_app_comm _ l2). rewrite !app_assoc. reflexivity.
  - repeat split; assumption.
  - destruct (sum_list_insert liveWeight _ i _ (WSend rest) Hi) as (n & Hn & ->).
    destruct (concat_insert pendingOf _ i _ (WSend rest) Hi) as (l1 & l2 & Hl & ->).
    rewrite Hn in *. rewrite Hl in Hperm. simpl in *.
    repeat split; try assumption.
    rewrite <- Hperm. rewrite <- !app_assoc. apply Permutation_app_head.
    simpl. rewrite Permutation_middle. reflexivity.
  - exfalso. destruct (closer s); try (destruct Hcloser; congruence); try congruence.
    destruct Hcloser as [_ Hlive].
    pose proof (liveWorkers_0_done _ _ _ Hlive Hi). discriminate.
  - destruct (sum_list_insert liveWeight _ i _ WReceive Hi) as (n & Hn & ->).
    destruct (concat_insert pendingOf _ i _ WReceive Hi) as (l1 & l2 & Hl & ->).
    rewrite Hn in *. rewrite Hl in Hperm. simpl in *.
    repeat split; assumption.
  - destruct (sum_list_insert liveWeight _ i _ WReturned Hi) as (n & Hn & ->).
    destruct (concat_insert pendingOf _ i _ WReturned Hi) as (l1 & l2 & Hl & ->).
    rewrite Hn in *. rewrite Hl in Hperm. simpl in *.
    repeat split; assumption.
  - destruct (sum_list_insert liveWeight _ i _ WDone Hi) as (n & Hn & ->).
    destruct (concat_insert pendingOf _ i _ WDone Hi) as (l1 & l2 & Hl & ->).
    rewrite Hn in *. rewrite Hl in Hperm. simpl in *.
    repeat split; try assumption; [lia |].
    destruct (closer s); [assumption | lia | lia].
  - rewrite Hc in Hcloser. repeat split; try assumption. lia.
  - rewrite Hc in Hcloser. destruct Hcloser as [Hcl Hlive].
    repeat split; try assumption. rewrite Hcl. reflexivity.
Qed.

Lemma invariant_reachable (s s' : System) :
  invariant s -> rtc step s s' -> invariant s'.
Proof. intros Hs Hrun. induction Hrun; eauto using invariant_step. Qed.

(** Once the results channel is closed nothing moves but the producer
    closing its own channel. *)
Lemma closed_step (s s' : System) :
  invariant s -> resultsCloses s = 1%nat -> step s s' ->
  resultsCloses s' = 1%nat /\ workers s' = workers s /\ delivered s' = delivered s.
Proof.
  unfold invariant, liveWorkers. intros (Hpanic & Hwg & Hcloser & Hperm) Hcl Hstep.
  assert (Hlive : sum_list (liveWeight <$> workers s) = 0%nat).
  { destruct (closer s); [congruence | destruct Hcloser; congruence
                         | destruct Hcloser; assumption]. }
  assert (Hc : closer s = CClosed).
  { destruct (closer s); [congruence | destruct Hcloser; congruence | reflexivity]. }
  destruct Hstep; simpl;
    try (match goal with
         | H : workers _ !! _ = Some _ |- _ =>
             pose proof (liveWorkers_0_done _ _ _ Hlive H); discriminate
         end);
    try congruence; auto.
Qed.

Lemma closed_reachable (s s' : System) :
  invariant s -> resultsCloses s = 1%nat -> rtc step s s' ->
  resultsCloses s' = 1%nat /\ workers s' = workers s /\ delivered s' = delivered s.
Proof.
  intros Hinv Hcl Hrun. induction Hrun as [s | s s1 s2 Hstep Hrun IH]; [auto |].
  destruct (closed_step s s1 Hinv Hcl Hstep) as (Hcl1 & Hw1 & Hd1).
  destruct (IH (invariant_step _ _ Hinv Hstep) Hcl1) as (? & ? & ?).
  repeat split; congruence.
Qed.

(** As long as the results channel is open, something can move. *)
Lemma progress (s : System) :
  invariant s -> resultsCloses s = 1%nat \/ exists s', step s s'.
Proof.
  unfold invariant, liveWorkers.
  intros (Hpanic & Hwg & Hcloser & Hperm).
  destruct (chunksClosed s) eqn:Hopen;
    [| right; eexists; apply step_close_chunks; exact Hopen].
  destruct (live_or_done (workers s)) as [Hlive | (i & w & Hi & Hw)].
  - destruct (closer s) eqn:Hc.
    + right. eexists. apply step_wake; [exact Hc | lia].
    + right. eexists. apply step_close_results. exact Hc.
    + left. apply Hcloser.
  - right. destruct w as [| [|r rest] | |]; [| | | | congruence].
    + eexists. eapply step_return; eassumption.
    + eexists. eapply step_next; eassumption.
    + destruct (resultsCloses s) eqn:Hcl.
      * eexists. eapply step_deliver; eassumption.
      * eexists. eapply step_send_on_closed; [eassumption | lia | assumption].
    + eexists. eapply step_done; eassumption.
Qed.

Lemma terminal_closed (s : System) :
  invariant s -> terminal s -> resultsCloses s = 1%nat.
Proof.
  intros Hinv Hterm. destruct (progress s Hinv) as [H | [s' Hstep]]; [exact H |].
  exfalso. exact (Hterm s' Hstep).
Qed.

Lemma chunksClosed_step (s s' : System) :
  chunksClosed s = true -> step s s' -> chunksClosed s' = true.
Proof. intros Hclosed Hstep. destruct Hstep; simpl; auto. Qed.

(** Once the producer closed [e.chunks], every step brings the end nearer. *)
Lemma measure_step (s s' : System) :
  chunksClosed s = true -> step s s' -> (measure s' < measure s)%nat.
Proof.
  unfold measure. intros Hclosed Hstep.
  destruct Hstep as [s i chunk order Hopen Hi Hvalid | s Hopen
                    | s i r rest Hi Hcl Hnp | s i r rest Hi Hcl Hnp
                    | s i Hi | s i Hi Hclosed' | s i Hi | s Hc Hz | s Hc]; simpl;
    try congruence;
    try (match goal with
         | H : workers _ !! _ = Some _ |- context [<[_ := ?w]> _] =>
             destruct (sum_list_insert workerWeight _ _ _ w H) as (n & -> & ->)
         end; simpl; lia).
  - rewrite Hnp. lia.
  - rewrite Hc. simpl. lia.
  - rewrite Hc. simpl. lia.
Qed.

(** Once the producer closed [e.chunks], the run goes on to the close of
    the results channel. *)
Lemma closes_eventually (s : System) :
  invariant s -> chunksClosed s = true ->
  exists s', rtc step s s' /\ resultsCloses s' = 1%nat.
Proof.
  remember (measure s) as n eqn:Hn. revert s Hn.
  induction (lt_wf n) as [n _ IH]. intros s -> Hinv Hclosed.
  destruct (progress s Hinv) as [Hcl | [s1 Hstep]].
  - exists s. split; [apply rtc_refl | exact Hcl].
  - destruct (IH (measure s1) (measure_step s s1 Hclosed Hstep) s1 eq_refl
                (invariant_step s s1 Hinv Hstep)
                (chunksClosed_step s s1 Hclosed Hstep))
      as (s' & Hrun & Hcl).
    exists s'. split; [eapply rtc_l; eassumption | exact Hcl].
Qed.

(** C1.  In every state of every run of the engine: the results channel
    was closed at most once and no send met it closed; if it is closed
    then every worker has executed [Done] and holds no result, every
    finding of every chunk drawn was delivered, and from then on the
    workers and the delivered findings stay as they are and the channel
    is not closed again.  A run can stop only after the close; once the
    producer closed the chunks channel every step lowers [measure], and
    the run goes on to the close. *)
Theorem C1_results_closed_once_after_the_workers (options : list EngineOption)
    (s : System) :
  rtc step (Start options) s ->
  (resultsCloses s <= 1)%nat /\
  panicked s = false /\
  (resultsCloses s = 1%nat ->
   Forall (fun w => w = WDone) (workers s) /\
   inFlight s = [] /\
   delivered s ≡ₚ produced s /\
   forall s', rtc step s s' ->
     resultsCloses s' = 1%nat /\ workers s' = workers s /\
     delivered s' = delivered s) /\
  (resultsCloses s = 1%nat \/ exists s', step s s') /\
  (terminal s -> resultsCloses s = 1%nat) /\
  (chunksClosed s = true ->
   (forall s', step s s' ->
      chunksClosed s' = true /\ (measure s' < measure s)%nat) /\
   exists s', rtc step s s' /\ resultsCloses s' = 1%nat).
Proof.
  intros Hrun.
  pose proof (invariant_reachable _ _ (invariant_Start options) Hrun) as Hinv.
  pose proof Hinv as (Hpanic & Hwg & Hcloser & Hperm).
  split; [| split; [| split; [| split; [| split]]]].
  - destruct (closer s); [lia | lia | lia].
  - exact Hpanic.
  - intros Hcl.
    assert (Hlive : liveWorkers s = 0%nat).
    { destruct (closer s); [congruence | destruct Hcloser; congruence
                           | destruct Hcloser; assumption]. }
    assert (Hfl : inFlight s = []) by (apply liveWorkers_0_inFlight; exact Hlive).
    split; [apply liveWorkers_0_Forall; exact Hlive |].
    split; [exact Hfl |].
    split; [rewrite Hfl, app_nil_r in Hperm; exact Hperm |].
    intros s' Hrun'. eapply closed_reachable; eassumption.
  - apply progress. exact Hinv.
  - apply terminal_closed. exact Hinv.
  - intros Hclosed. split.
    + intros s' Hstep. split;
        [eapply chunksClosed_step | eapply measure_step]; eassumption.
    + apply closes_eventually; assumption.
Qed.

End Shutdown.

Import Samples.

(** The run of one worker on the sample chunk, step by step, down to the
    state [atRest]. *)
Lemma run_to_rest :
  rtc (step GoStrings.asciiToLower copyMetadata)
      (Start 4 [plain] [aws] oneWorker) atRest.
Proof.
  eapply rtc_l.
  { apply (step_draw _ _ _ 0%nat sample verifiedOnly); [reflexivity | reflexivity |].
    intros i. unfold rangeOrder. vm_compute. reflexivity. }
  eapply rtc_l.
  { eapply (step_deliver _ _ _ 0%nat); [vm_compute; reflexivity | reflexivity | reflexivity]. }
  eapply rtc_l.
  { eapply (step_next _ _ _ 0%nat). vm_compute; reflexivity. }
  eapply rtc_l.
  { eapply step_close_chunks. reflexivity. }
  eapply rtc_l.
  { eapply (step_return _ _ _ 0%nat); [vm_compute; reflexivity | reflexivity]. }
  eapply rtc_l.
  { eapply (step_done _ _ _ 0%nat). vm_compute; reflexivity. }
  eapply rtc_l.
  { eapply step_wake; [reflexivity | vm_compute; reflexivity]. }
  eapply rtc_l.
  { eapply step_close_results. reflexivity. }
  vm_compute. apply rtc_refl.
Qed.

(** At rest the channel was closed once, the worker is done and the
    finding of the sample was delivered. *)
Lemma C1_witness :
  rtc (step GoStrings.asciiToLower copyMetadata)
      (Start 4 [plain] [aws] oneWorker) atRest /\
  resultsCloses atRest = 1%nat /\
  Forall (fun w => w = WDone) (workers atRest) /\
  delivered atRest ≡ₚ produced atRest.
Proof.
  split; [exact run_to_rest |].
  pose proof (C1_results_closed_once_after_the_workers GoStrings.asciiToLower 4
                copyMetadata [plain] [aws] oneWorker atRest run_to_rest)
    as (_ & _ & Hclosed & _).
  destruct (Hclosed eq_refl) as (Hdone & _ & Hall & _).
  split; [reflexivity |]. split; [exact Hdone | exact Hall].
Defined.

End ShutdownFacts.

(** ** The GitHub enumerator *)
Module GithubFacts.
Import GoStrings Github.
Local Open Scope string_scope.
Local Open Scope list_scope.

(** *** The tests, replayed on the model *)

Example TestNormalizeRepos_url :
  repos (normalizeRepos testIsRepoURL testNormalizeURL offline
           (withRepos ["https://github.com/super-secret-user/super-secret-repo"])) =
  ["https://github.com/super-secret-user/super-secret-repo";
   "https://github.com/super-secret-user/super-secret-repo.git"].
Proof. vm_compute. reflexivity. Qed.

Example TestNormalizeRepos_login :
  repos (normalizeRepos testIsRepoURL testNormalizeURL normalizeMocks
           (withRepos ["super-secret-user"])) =
  ["super-secret-repo"; "super-secret-gist"].
Proof. vm_compute. reflexivity. Qed.

Example TestNormalizeRepos_not_found :
  repos (normalizeRepos testIsRepoURL testNormalizeURL normalizeMocks
           (withRepos ["not-found"])) =
  ["not-found"; EmptyString].
Proof. vm_compute. reflexivity. Qed.

Example TestAddReposByOrg :
  addReposByOrg addMocks "super-secret-org" newSource =
  (withRepos ["super-secret-repo"], None).
Proof. reflexivity. Qed.

Example TestAddReposByUser :
  addReposByUser addMocks "super-secret-user" newSource =
  (withRepos ["super-secret-repo"], None).
Proof. reflexivity. Qed.

Example TestAddGistsByUser :
  repos (addGistsByUser addMocks "super-secret-user" newSource) =
  ["super-secret-gist"].
Proof. reflexivity. Qed.

Example TestAddReposByApp :
  addReposByApp addMocks newSource = (withRepos ["ssr1"; "ssr2"], None).
Proof. reflexivity. Qed.

Example TestAddOrgsByUser :
  orgs (addOrgsByUser addMocks "super-secret-user" newSource) = ["sso1"; "sso2"].
Proof. reflexivity. Qed.

Example TestHandleRateLimit (now : Z) :
  handleRateLimit now None None = false /\
  handleRateLimit now (Some RateLimited)
    (Some {| rateRemaining := Some 0%Z; rateReset := Some (now + 1)%Z |}) = true.
Proof. split; [reflexivity | simpl; apply Z.ltb_lt; lia]. Qed.

Example TestAddMembersByApp :
  addMembersByApp membersMocks newSource =
  ({| repos := []; orgs := []; members := ["ssm1"; "ssm2"; "ssm3"] |}, None).
Proof. vm_compute. reflexivity. Qed.

(** *** The rate-limit guard *)

(** C3.  The guard recommends a wait exactly when the response reports no
    request left and a reset time after now; so it does for a rate-limit
    error with none left and a reset one second ahead, and it does not
    for a nil error and a nil response. *)
Theorem C3_guard_waits_only_when_exhausted (now : Z) :
  (forall errIn res,
     handleRateLimit now errIn res = true <->
     exists r resetTime,
       res = Some r /\ rateRemaining r = Some 0%Z /\ rateReset r = Some resetTime /\
       (now < resetTime)%Z) /\
  handleRateLimit now (Some RateLimited)
    (Some {| rateRemaining := Some 0%Z; rateReset := Some (now + 1)%Z |}) = true /\
  handleRateLimit now None None = false.
Proof.
  split; [| split].
  - intros errIn res. unfold handleRateLimit. split.
    + destruct res as [r|]; [| discriminate].
      destruct (rateRemaining r) as [quota|] eqn:Hq; [| discriminate].
      destruct (rateReset r) as [resetTime|] eqn:Hr; [| discriminate].
      intros H. apply andb_true_iff in H as [H1 H2].
      apply Z.eqb_eq in H1. apply Z.ltb_lt in H2. subst quota.
      exists r, resetTime. auto.
    + intros (r & resetTime & -> & -> & -> & Hlt).
      apply andb_true_iff. split; [reflexivity | apply Z.ltb_lt; exact Hlt].
  - simpl. apply Z.ltb_lt. lia.
  - reflexivity.
Qed.

(** *** The member listing of an application installation *)

(** C9.  When the installation listing discovers the one organization
    [org] and the member listing of [org] returns [m1], [m2], [m3] in
    that order, [addMembersByApp] appends exactly these three, in that
    order, and returns no error; on a fresh source the member sequence is
    [[m1; m2; m3]]. *)
Theorem C9_members_in_listing_order (p : Platform) (org m1 m2 m3 : string)
    (s : Source) :
  paginate (appInstallations p) = ([org], None) ->
  paginate (orgMembers p org) = ([m1; m2; m3], None) ->
  members (fst (addMembersByApp p s)) = members s ++ [m1; m2; m3] /\
  snd (addMembersByApp p s) = None /\
  repos (fst (addMembersByApp p s)) = repos s /\
  orgs (fst (addMembersByApp p s)) = orgs s /\
  members (fst (addMembersByApp p newSource)) = [m1; m2; m3].
Proof.
  intros Hinst Hmem. unfold addMembersByApp. rewrite Hinst. simpl.
  rewrite Hmem. simpl. repeat split.
Qed.

Lemma C9_witness :
  paginate (appInstallations membersMocks) = (["super-secret-org"], None) /\
  paginate (orgMembers membersMocks "super-secret-org") =
    (["ssm1"; "ssm2"; "ssm3"], None) /\
  members (fst (addMembersByApp membersMocks newSource)) = ["ssm1"; "ssm2"; "ssm3"] /\
  snd (addMembersByApp membersMocks newSource) = None.
Proof.
  split; [reflexivity |]. split; [reflexivity |].
  pose proof (C9_members_in_listing_order membersMocks "super-secret-org"
                "ssm1" "ssm2" "ssm3" newSource eq_refl eq_refl)
    as (_ & Herr & _ & _ & Hfresh).
  split; [exact Hfresh | exact Herr].
Defined.

(** *** Normalization *)

Section NormalizeFacts.
Variable isRepoURL : string -> bool.
Variable normalizeURL : string -> string.

Local Abbreviation normalizeEntry := (Github.normalizeEntry isRepoURL normalizeURL).
Local Abbreviation normalizeRepos := (Github.normalizeRepos isRepoURL normalizeURL).

(** What the pass keeps and appends for the entries [l], taken alone. *)
Local Abbreviation pass p l := (fold_left (normalizeEntry p) l ([], [])).

(** An entry adds to what the entries before it left. *)
Lemma normalizeEntry_from (p : Platform) (repo : string) (kept appended : list string) :
  normalizeEntry p (kept, appended) repo =
  (kept ++ fst (normalizeEntry p ([], []) repo),
   appended ++ snd (normalizeEntry p ([], []) repo)).
Proof.
  unfold Github.normalizeEntry. destruct (isRepoURL repo); [reflexivity |].
  destruct (resolveLogin p repo); simpl; rewrite ?app_nil_r; reflexivity.
Qed.

Lemma pass_from (p : Platform) (l : list string) (kept appended : list string) :
  fold_left (normalizeEntry p) l (kept, appended) =
  (kept ++ fst (pass p l), appended ++ snd (pass p l)).
Proof.
  revert kept appended; induction l as [|repo l IH]; intros kept appended;
    cbn [fold_left].
  - simpl. rewrite !app_nil_r. reflexivity.
  - rewrite normalizeEntry_from.
    destruct (normalizeEntry p ([], []) repo) as [k a]. simpl.
    rewrite IH, (IH k a). simpl. rewrite <- !app_assoc. reflexivity.
Qed.

Lemma pass_app (p : Platform) (l1 l2 : list string) :
  pass p (l1 ++ l2) =
  (fst (pass p l1) ++ fst (pass p l2), snd (pass p l1) ++ snd (pass p l2)).
Proof.
  rewrite fold_left_app. destruct (pass p l1) as [kept appended].
  apply pass_from.
Qed.

Lemma repos_normalizeRepos (p : Platform) (s : Source) :
  repos (normalizeRepos p s) = fst (pass p (repos s)) ++ snd (pass p (repos s)).
Proof.
  unfold Github.normalizeRepos. destruct (pass p (repos s)). reflexivity.
Qed.

(** When no login of the sequence resolves, every entry is kept. *)
Lemma pass_keeps (p : Platform) (l : list string) :
  (forall repo, repo ∈ l -> isRepoURL repo = true \/ resolveLogin p repo = []) ->
  fst (pass p l) = l.
Proof.
  induction l as [|repo l IH]; intros H; [reflexivity |].
  change (repo :: l) with ([repo] ++ l). rewrite pass_app.
  rewrite IH by (intros r Hr; apply H; right; exact Hr).
  change (pass p [repo]) with (normalizeEntry p ([], []) repo).
  unfold Github.normalizeEntry.
  destruct (H repo) as [Hurl | Hnone]; [left | |].
  - rewrite Hurl. reflexivity.
  - destruct (isRepoURL repo); [reflexivity | rewrite Hnone; reflexivity].
Qed.

(** C4.  A bare login of the repo sequence whose repos and gists listings
    both answer 404 stays in the sequence and has exactly one empty
    string appended for it, between what is appended for the entries
    before it and for those after it; normalization returns a source, and
    leaves the orgs and the members alone. *)
Theorem C4_unresolved_login_gets_one_placeholder (p : Platform) (s : Source)
    (before after : list string) (login : string) :
  repos s = before ++ login :: after ->
  isRepoURL login = false ->
  userRepos p login = inl NotFound ->
  userGists p login = inl NotFound ->
  normalizeEntry p ([], []) login = ([login], [EmptyString]) /\
  repos (normalizeRepos p s) =
    (fst (pass p before) ++ login :: fst (pass p after)) ++
    (snd (pass p before) ++ EmptyString :: snd (pass p after)) /\
  orgs (normalizeRepos p s) = orgs s /\
  members (normalizeRepos p s) = members s.
Proof.
  intros Hrepos Hurl Hr Hg.
  assert (Hentry : normalizeEntry p ([], []) login = ([login], [EmptyString])).
  { unfold Github.normalizeEntry, resolveLogin. rewrite Hurl, Hr, Hg. reflexivity. }
  split; [exact Hentry |]. split.
  - rewrite repos_normalizeRepos, Hrepos.
    change (login :: after) with ([login] ++ after). rewrite !pass_app.
    change (pass p [login]) with (normalizeEntry p ([], []) login).
    rewrite Hentry. reflexivity.
  - unfold Github.normalizeRepos. destruct (pass p (repos s)). split; reflexivity.
Qed.

Lemma extends_appendRepos (found : list string) (s : Source) :
  extends s (appendRepos found s).
Proof. repeat split; simpl; try reflexivity. apply prefix_app_r. reflexivity. Qed.

Lemma extends_appendOrgs (found : list string) (s : Source) :
  extends s (appendOrgs found s).
Proof. repeat split; simpl; try reflexivity. apply prefix_app_r. reflexivity. Qed.

Lemma extends_appendMembers (found : list string) (s : Source) :
  extends s (appendMembers found s).
Proof. repeat split; simpl; try reflexivity. apply prefix_app_r. reflexivity. Qed.

Lemma extends_refl (s : Source) : extends s s.
Proof. repeat split; reflexivity. Qed.

Lemma extends_trans (s1 s2 s3 : Source) :
  extends s1 s2 -> extends s2 s3 -> extends s1 s3.
Proof.
  intros (H1 & H2 & H3) (K1 & K2 & K3).
  repeat split; etransitivity; eassumption.
Qed.

Lemma extends_addMembersOfOrgs (p : Platform) (os : list string) (s : Source) :
  extends s (fst (addMembersOfOrgs p os s)).
Proof.
  revert s; induction os as [|org os IH]; intros s; simpl.
  - apply extends_refl.
  - destruct (paginate (orgMembers p org)) as [found [err|]]; simpl.
    + apply extends_refl.
    + eapply extends_trans; [apply extends_appendMembers | apply IH].
Qed.

(** C7 (amended).  The operations that add to the enumeration state
    only append: what the repo, org and member sequences held stays as
    the beginning of what they hold after.  Normalization never touches
    the orgs and the members; it keeps the repo sequence as a beginning
    when every entry is a URL or a login for which nothing is found, and
    it starts with the entries it keeps; it does not remove duplicates: a
    URL listed twice is there twice after.  A login that resolves is
    replaced by the entries found for it: it is not among the entries
    kept, and what was found stands among the entries appended, at the
    place of the login's turn; a URL is kept and its normal form is
    appended. *)
Theorem C7_enumeration_appends (p : Platform) (s : Source) (name : string) :
  extends s (fst (addReposByOrg p name s)) /\
  extends s (fst (addReposByUser p name s)) /\
  extends s (addGistsByUser p name s) /\
  extends s (addOrgsByUser p name s) /\
  extends s (fst (addReposByApp p s)) /\
  extends s (fst (addMembersByApp p s)) /\
  orgs (normalizeRepos p s) = orgs s /\
  members (normalizeRepos p s) = members s /\
  fst (pass p (repos s)) `prefix_of` repos (normalizeRepos p s) /\
  ((forall repo, repo ∈ repos s ->
      isRepoURL repo = true \/ resolveLogin p repo = []) ->
   extends s (normalizeRepos p s)) /\
  (isRepoURL name = true ->
   ~ NoDup (repos (normalizeRepos p (withRepos [name; name])))) /\
  (forall before login after,
     repos s = before ++ login :: after ->
     isRepoURL login = false ->
     resolveLogin p login <> [] ->
     repos (normalizeRepos p s) =
       (fst (pass p before) ++ fst (pass p after)) ++
       (snd (pass p before) ++ resolveLogin p login ++ snd (pass p after))) /\
  (forall before url after,
     repos s = before ++ url :: after ->
     isRepoURL url = true ->
     repos (normalizeRepos p s) =
       (fst (pass p before) ++ url :: fst (pass p after)) ++
       (snd (pass p before) ++ normalizeURL url :: snd (pass p after))).
Proof.
  repeat match goal with |- _ /\ _ => split end.
  - unfold addReposByOrg. destruct (paginate (orgRepos p name)).
    apply extends_appendRepos.
  - unfold addReposByUser. destruct (paginate (userRepos p name)).
    apply extends_appendRepos.
  - apply extends_appendRepos.
  - apply extends_appendOrgs.
  - unfold addReposByApp. destruct (paginate (installationRepos p)).
    apply extends_appendRepos.
  - unfold addMembersByApp.
    destruct (paginate (appInstallations p)) as [installed [err|]]; simpl.
    + apply extends_refl.
    + apply extends_addMembersOfOrgs.
  - unfold Github.normalizeRepos. destruct (pass p (repos s)). reflexivity.
  - unfold Github.normalizeRepos. destruct (pass p (repos s)). reflexivity.
  - rewrite repos_normalizeRepos. apply prefix_app_r. reflexivity.
  - intros Hkept. split; [| split].
    + rewrite repos_normalizeRepos, (pass_keeps p _ Hkept).
      apply prefix_app_r. reflexivity.
    + unfold Github.normalizeRepos. destruct (pass p (repos s)). reflexivity.
    + unfold Github.normalizeRepos. destruct (pass p (repos s)). reflexivity.
  - intros Hurl Hnodup. rewrite repos_normalizeRepos in Hnodup.
    unfold withRepos in Hnodup. cbn [repos fold_left] in Hnodup.
    unfold Github.normalizeEntry in Hnodup. rewrite Hurl in Hnodup.
    simpl in Hnodup.
    apply NoDup_cons in Hnodup as [Hnotin _]. apply Hnotin. left.
  - intros before login after Hrepos Hurl Hfound.
    rewrite repos_normalizeRepos, Hrepos.
    change (login :: after) with ([login] ++ after). rewrite !pass_app.
    change (pass p [login]) with (normalizeEntry p ([], []) login).
    unfold Github.normalizeEntry. rewrite Hurl.
    destruct (resolveLogin p login) as [|r found]; [congruence | reflexivity].
  - intros before url after Hrepos Hurl.
    rewrite repos_normalizeRepos, Hrepos.
    change (url :: after) with ([url] ++ after). rewrite !pass_app.
    change (pass p [url]) with (normalizeEntry p ([], []) url).
    unfold Github.normalizeEntry. rewrite Hurl. reflexivity.
Qed.

End NormalizeFacts.

(** The login of the third case of TestNormalizeRepos has both listings
    answer 404 for [not-found]: one placeholder. *)
Lemma C4_witness :
  repos (withRepos ["not-found"]) = [] ++ "not-found" :: [] /\
  testIsRepoURL "not-found" = false /\
  userRepos normalizeMocks "not-found" = inl NotFound /\
  userGists normalizeMocks "not-found" = inl NotFound /\
  repos (normalizeRepos testIsRepoURL testNormalizeURL normalizeMocks
           (withRepos ["not-found"])) = ["not-found"; EmptyString].
Proof.
  split; [reflexivity |]. split; [reflexivity |].
  split; [reflexivity |]. split; [reflexivity |].
  pose proof (C4_unresolved_login_gets_one_placeholder testIsRepoURL
                testNormalizeURL normalizeMocks (withRepos ["not-found"])
                [] [] "not-found" eq_refl eq_refl eq_refl eq_refl)
    as (_ & Hrepos & _).
  exact Hrepos.
Defined.

(** C7 as stated fails: the login of TestNormalizeRepos that resolves is
    replaced by what was found for it, so the sequence before the pass is
    not the beginning of the sequence after. *)
Lemma C7_counterexample :
  repos (normalizeRepos testIsRepoURL testNormalizeURL normalizeMocks
           (withRepos ["super-secret-user"])) =
    ["super-secret-repo"; "super-secret-gist"] /\
  ~ (repos (withRepos ["super-secret-user"]) `prefix_of`
     repos (normalizeRepos testIsRepoURL testNormalizeURL normalizeMocks
              (withRepos ["super-secret-user"]))).
Proof.
  split; [vm_compute; reflexivity |].
  intros [rest H]. vm_compute in H. discriminate.
Qed.

(** The URL of the first case of TestNormalizeRepos is kept in front;
    the login of the second case is replaced by what was found for it. *)
Lemma C7_witness :
  (forall repo,
     repo ∈ repos (withRepos ["https://github.com/super-secret-user/super-secret-repo"]) ->
     testIsRepoURL repo = true \/ resolveLogin offline repo = []) /\
  extends (withRepos ["https://github.com/super-secret-user/super-secret-repo"])
    (normalizeRepos testIsRepoURL testNormalizeURL offline
       (withRepos ["https://github.com/super-secret-user/super-secret-repo"])) /\
  repos (withRepos ["super-secret-user"]) = [] ++ "super-secret-user" :: [] /\
  testIsRepoURL "super-secret-user" = false /\
  resolveLogin normalizeMocks "super-secret-user" <> [] /\
  repos (normalizeRepos testIsRepoURL testNormalizeURL normalizeMocks
           (withRepos ["super-secret-user"])) =
    ["super-secret-repo"; "super-secret-gist"].
Proof.
  assert (H : forall repo,
     repo ∈ repos (withRepos ["https://github.com/super-secret-user/super-secret-repo"]) ->
     testIsRepoURL repo = true \/ resolveLogin offline repo = []).
  { intros repo Hin. right. reflexivity. }
  assert (Hfound : resolveLogin normalizeMocks "super-secret-user" <> [])
    by (vm_compute; discriminate).
  split; [exact H |].
  pose proof (C7_enumeration_appends testIsRepoURL testNormalizeURL offline
                (withRepos ["https://github.com/super-secret-user/super-secret-repo"])
                "super-secret-org")
    as (_ & _ & _ & _ & _ & _ & _ & _ & _ & Hext & _).
  split; [exact (Hext H) |].
  split; [reflexivity |]. split; [reflexivity |]. split; [exact Hfound |].
  pose proof (C7_enumeration_appends testIsRepoURL testNormalizeURL normalizeMocks
                (withRepos ["super-secret-user"]) "super-secret-org")
    as (_ & _ & _ & _ & _ & _ & _ & _ & _ & _ & _ & Hreplaced & _).
  rewrite (Hreplaced [] "super-secret-user" [] eq_refl eq_refl Hfound).
  vm_compute. reflexivity.
Defined.

End GithubFacts.

(** ** The options *)
Module OptionFacts.
Import Engine StartFacts.

Section Options.
Context {Metadata Result ResultWithMetadata error : Type}.
Variable ToLower : string -> string.
Variable NumCPU : Z.
Variable CopyMetadata : @Chunk Metadata -> Result -> ResultWithMetadata.
Variable DefaultDecoders : list (@Decoder Metadata).
Variable DefaultDetectors : list (@Detector Result error).

Local Abbreviation Detector := (@Engine.Detector Result error).
Local Abbreviation Decoder := (@Engine.Decoder Metadata).
Local Abbreviation Engine := (@Engine.Engine Metadata Result error).
Local Abbreviation EngineOption := (@Engine.EngineOption Metadata Result error).
Local Abbreviation startEngine :=
  (Engine.startEngine NumCPU DefaultDecoders DefaultDetectors).
Local Abbreviation processChunk := (Engine.processChunk ToLower CopyMetadata).

Lemma applyOptions_snoc (options : list EngineOption) (option : EngineOption) :
  applyOptions (options ++ [option]) = option (applyOptions options).
Proof. unfold applyOptions. rewrite fold_left_app. reflexivity. Qed.

(** X1.  Two [WithDetectors] for the same verification flag add up: the
    partition holds what it held, then the detectors of the first call,
    then those of the second; the other partition is left as it was, and
    the two calls amount to one call with both lists. *)
Theorem X1_WithDetectors_accumulates (e : Engine) (verify : bool)
    (d1 d2 : list Detector) :
  detectors (WithDetectors verify d2 (WithDetectors verify d1 e)) !! verify =
    Some (default [] (detectors e !! verify) ++ d1 ++ d2) /\
  detectors (WithDetectors verify d2 (WithDetectors verify d1 e)) !! negb verify =
    detectors e !! negb verify /\
  WithDetectors verify d2 (WithDetectors verify d1 e) =
    WithDetectors verify (d1 ++ d2) e.
Proof.
  unfold WithDetectors; simpl.
  rewrite !lookup_insert_eq. simpl. rewrite insert_insert_eq, <- app_assoc.
  split; [reflexivity |]. split; [| reflexivity].
  rewrite !lookup_insert_ne by (destruct verify; discriminate). reflexivity.
Qed.

(** X2.  [WithDetectors] for the verified partition and [WithDetectors]
    for the unverified one do not see each other: in either order they
    leave the same engine. *)
Theorem X2_WithDetectors_partitions_commute (e : Engine) (d1 d2 : list Detector) :
  WithDetectors true d1 (WithDetectors false d2 e) =
  WithDetectors false d2 (WithDetectors true d1 e).
Proof.
  unfold WithDetectors; simpl.
  rewrite !lookup_insert_ne by discriminate.
  f_equal. apply insert_insert_ne. discriminate.
Qed.

(** X3.  The last [WithConcurrency] and the last [WithDecoders] decide,
    whatever the options before them did: [Start] takes the concurrency
    given, or the number of CPUs when it is zero, and the decoders given,
    or the default decoders when there are none; neither option changes
    the other fields of the engine [Start] returns. *)
Theorem X3_last_option_wins (options : list EngineOption) (c : Z)
    (ds : list Decoder) :
  concurrency (startEngine (options ++ [WithConcurrency c])) =
    (if c =? 0 then NumCPU else c) /\
  decoders (startEngine (options ++ [WithConcurrency c])) =
    decoders (startEngine options) /\
  detectors (startEngine (options ++ [WithConcurrency c])) =
    detectors (startEngine options) /\
  decoders (startEngine (options ++ [WithDecoders ds])) =
    match ds with [] => DefaultDecoders | _ => ds end /\
  concurrency (startEngine (options ++ [WithDecoders ds])) =
    concurrency (startEngine options) /\
  detectors (startEngine (options ++ [WithDecoders ds])) =
    detectors (startEngine options).
Proof.
  destruct (startEngine_fields NumCPU DefaultDecoders DefaultDetectors
              (options ++ [WithConcurrency c])) as (Hc1 & Hd1 & Hm1).
  destruct (startEngine_fields NumCPU DefaultDecoders DefaultDetectors
              (options ++ [WithDecoders ds])) as (Hc2 & Hd2 & Hm2).
  destruct (startEngine_fields NumCPU DefaultDecoders DefaultDetectors options)
    as (Hc & Hd & Hm).
  rewrite applyOptions_snoc in Hc1, Hd1, Hm1, Hc2, Hd2, Hm2. simpl in *.
  rewrite Hc1, Hd1, Hm1, Hc2, Hd2, Hm2, Hc, Hd, Hm.
  repeat split. destruct ds; reflexivity.
Qed.

(** X4.  Any [WithDetectors] as the last option keeps [Start] from
    installing the default detectors, also when it brings no detector;
    and the engine started with nothing but a [WithDetectors] without
    detectors does nothing with a chunk: no call, no log, no finding. *)
Theorem X4_empty_WithDetectors_leaves_no_detector (options : list EngineOption)
    (verify : bool) (d : list Detector) order chunk :
  detectors (startEngine (options ++ [WithDetectors verify d])) =
    <[verify := default [] (detectors (applyOptions options) !! verify) ++ d]>
      (detectors (applyOptions options)) /\
  detectors (startEngine [WithDetectors verify []]) !! verify = Some [] /\
  detectors (startEngine [WithDetectors verify []]) !! negb verify = None /\
  processChunk (startEngine [WithDetectors verify []]) order chunk = [].
Proof.
  assert (Hlast : forall (options : list EngineOption) (d : list Detector),
    detectors (startEngine (options ++ [WithDetectors verify d])) =
      <[verify := default [] (detectors (applyOptions options) !! verify) ++ d]>
        (detectors (applyOptions options))).
  { intros os ds.
    destruct (startEngine_fields NumCPU DefaultDecoders DefaultDetectors
                (os ++ [WithDetectors verify ds])) as (_ & _ & Hm).
    rewrite Hm, applyOptions_snoc. simpl.
    destruct (Nat.eqb_spec
      (size (<[verify := default [] (detectors (applyOptions os) !! verify) ++ ds]>
               (detectors (applyOptions os)))) 0) as [E|E]; [| reflexivity].
    apply map_size_empty_inv in E. exfalso. exact (insert_non_empty _ _ _ E). }
  split; [apply Hlast |].
  assert (Hm : detectors (startEngine [WithDetectors verify []]) =
               <[verify := []]> ∅).
  { pose proof (Hlast [] []) as H. simpl in H. rewrite lookup_empty in H. exact H. }
  split; [rewrite Hm; apply lookup_insert_eq |].
  split; [rewrite Hm, lookup_insert_ne by (destruct verify; discriminate);
          apply lookup_empty |].
  unfold Engine.processChunk. generalize 0%nat.
  induction (decoders (startEngine [WithDetectors verify []])) as [|decoder rest IH];
    intros i; simpl; [reflexivity |].
  rewrite IH, app_nil_r. unfold scanDecoder.
  destruct (FromChunk decoder chunk) as [decoded|]; [| reflexivity].
  induction (order i) as [|v keys IHk]; simpl; [reflexivity |].
  rewrite IHk, app_nil_r, Hm.
  destruct (decide (verify = v)) as [->|Hne].
  - rewrite lookup_insert_eq. reflexivity.
  - rewrite lookup_insert_ne, lookup_empty by exact Hne. reflexivity.
Qed.

(** X5.  The engine [Start] returns never has an empty detector map; it
    has a decoder as soon as the default set has one, and a concurrency
    other than zero as soon as the host reports a CPU. *)
Theorem X5_start_leaves_nothing_unset (options : list EngineOption) :
  detectors (startEngine options) <> ∅ /\
  (DefaultDecoders <> [] -> decoders (startEngine options) <> []) /\
  (NumCPU <> 0 -> concurrency (startEngine options) <> 0).
Proof.
  destruct (startEngine_fields NumCPU DefaultDecoders DefaultDetectors options)
    as (Hc & Hd & Hm).
  split; [| split].
  - rewrite Hm.
    destruct (Nat.eqb_spec (size (detectors (applyOptions options))) 0) as [E|E].
    + apply insert_non_empty.
    + intros H. rewrite H, map_size_empty in E. congruence.
  - intros Hdef. rewrite Hd.
    destruct (decoders (applyOptions options)); simpl; [exact Hdef | discriminate].
  - intros Hcpu. rewrite Hc.
    destruct (Z.eqb_spec (concurrency (applyOptions options)) 0); assumption.
Qed.

End Options.

(** The sample defaults: one decoder, four CPUs. *)
Lemma X5_witness :
  [Samples.plain] <> [] /\ 4 <> 0 /\
  decoders (startEngine 4 [Samples.plain] [Samples.aws] []) <> [] /\
  concurrency (startEngine 4 [Samples.plain] [Samples.aws] []) <> 0.
Proof.
  assert (H1 : [Samples.plain] <> []) by discriminate.
  assert (H2 : 4 <> 0) by discriminate.
  pose proof (X5_start_leaves_nothing_unset 4 [Samples.plain] [Samples.aws] [])
    as (_ & Hd & Hc).
  split; [exact H1 |]. split; [exact H2 |].
  split; [exact (Hd H1) | exact (Hc H2)].
Defined.

End OptionFacts.

(** ** What a trace holds *)
Module TraceFacts.
Import GoStrings GoStringsFacts Engine WorkerFacts Traces.

Section Trace.
Context {Metadata Result ResultWithMetadata error : Type}.
Variable ToLower : string -> string.
Variable CopyMetadata : @Chunk Metadata -> Result -> ResultWithMetadata.

Local Abbreviation Chunk := (@Engine.Chunk Metadata).
Local Abbreviation Decoder := (@Engine.Decoder Metadata).
Local Abbreviation Detector := (@Engine.Detector Result error).
Local Abbreviation Engine := (@Engine.Engine Metadata Result error).
Local Abbreviation Event := (@Engine.Event Result ResultWithMetadata error).
Local Abbreviation foundKeyword := (Engine.foundKeyword ToLower).
Local Abbreviation scanDetector := (Engine.scanDetector ToLower CopyMetadata).
Local Abbreviation rangeDetectors := (Engine.rangeDetectors ToLower CopyMetadata).
Local Abbreviation rangePartitions := (Engine.rangePartitions ToLower CopyMetadata).
Local Abbreviation scanDecoder := (Engine.scanDecoder ToLower CopyMetadata).
Local Abbreviation rangeDecoders := (Engine.rangeDecoders ToLower CopyMetadata).
Local Abbreviation processChunk := (Engine.processChunk ToLower CopyMetadata).

Lemma elem_of_concat {A : Type} (ls : list (list A)) (x : A) :
  x ∈ concat ls <-> exists l, x ∈ l /\ l ∈ ls.
Proof.
  induction ls as [|l ls IH]; simpl.
  - split; [intros H; inversion H | intros (l & _ & H); inversion H].
  - rewrite elem_of_app, IH. split.
    + intros [H | (l' & Hx & Hl)]; [exists l; split; [exact H | left] |].
      exists l'. split; [exact Hx | right; exact Hl].
    + intros (l' & Hx & Hl). apply elem_of_cons in Hl as [-> | Hl]; [left; exact Hx |].
      right. eauto.
Qed.

(** An event of the trace of a chunk comes from the turn of one detector
    of one partition under one decoder that yields content. *)
Lemma event_in_rangeDecoders (e : Engine) order i chunk (ds : list Decoder)
    (ev : Event) :
  ev ∈ rangeDecoders e order i chunk ds <->
  exists k decoder decoded verify detector,
    ds !! k = Some decoder /\ FromChunk decoder chunk = Some decoded /\
    verify ∈ order (i + k)%nat /\
    detector ∈ default [] (detectors e !! verify) /\
    ev ∈ scanDetector chunk decoded (ToLower (Data decoded)) verify detector.
Proof.
  rewrite rangeDecoders_concat, elem_of_concat. split.
  - intros (t & Hev & Ht).
    apply elem_of_lookup_imap in Ht as (k & decoder & -> & Hk).
    unfold Engine.scanDecoder in Hev.
    destruct (FromChunk decoder chunk) as [decoded|] eqn:Hdec; [| inversion Hev].
    rewrite rangePartitions_concat in Hev.
    apply elem_of_concat in Hev as (t & Hev & Ht).
    apply list_elem_of_fmap in Ht as (verify & -> & Hv).
    rewrite rangeDetectors_concat in Hev.
    apply elem_of_concat in Hev as (t & Hev & Ht).
    apply list_elem_of_fmap in Ht as (detector & -> & Hd).
    exists k, decoder, decoded, verify, detector. auto.
  - intros (k & decoder & decoded & verify & detector & Hk & Hdec & Hv & Hd & Hev).
    exists (scanDecoder e (order (i + k)%nat) chunk decoder). split.
    + unfold Engine.scanDecoder. rewrite Hdec.
      rewrite rangePartitions_concat. apply elem_of_concat.
      eexists. split; [| apply list_elem_of_fmap; exists verify; split;
                          [reflexivity | exact Hv]].
      rewrite rangeDetectors_concat. apply elem_of_concat.
      eexists. split; [exact Hev |].
      apply list_elem_of_fmap. exists detector. split; [reflexivity | exact Hd].
    + apply elem_of_lookup_imap. exists k, decoder. auto.
Qed.

Lemma elem_of_sends (t : list Event) (r : ResultWithMetadata) :
  r ∈ sends t <-> EvSend r ∈ t.
Proof.
  induction t as [|ev t IH]; simpl.
  - split; intros H; inversion H.
  - destruct ev; rewrite ?elem_of_cons, IH; split;
      try (intros [H | H]; [discriminate | exact H]);
      try (intros H; right; exact H).
    + intros [-> | H]; [left; reflexivity | right; exact H].
    + intros [H | H]; [injection H as ->; left; reflexivity | right; exact H].
Qed.

Lemma send_in_scanDetector chunk decoded dataLower verify (detector : Detector)
    (r : ResultWithMetadata) :
  EvSend r ∈ scanDetector chunk decoded dataLower verify detector <->
  foundKeyword dataLower (Keywords detector) = true /\
  exists results result,
    FromData detector verify (Data decoded) = (results, None) /\
    result ∈ results /\ r = CopyMetadata chunk result.
Proof.
  unfold Engine.scanDetector.
  destruct (Engine.foundKeyword ToLower dataLower (Keywords detector)); simpl.
  - destruct (FromData detector verify (Data decoded)) as [results [err|]].
    + split.
      * intros H. apply elem_of_cons in H as [H | H]; [discriminate |].
        apply list_elem_of_singleton in H. discriminate.
      * intros (_ & rs & x & H & _). discriminate.
    + rewrite elem_of_cons, list_elem_of_fmap. split.
      * intros [H | (result & H & Hin)]; [discriminate |].
        injection H as ->. split; [reflexivity |]. exists results, result. auto.
      * intros (_ & rs & result & H & Hin & ->). injection H as <-.
        right. exists result. auto.
  - split; [intros H; inversion H | intros [H _]; discriminate].
Qed.

Lemma log_in_scanDetector chunk decoded dataLower verify (detector : Detector)
    (err : error) :
  EvLogError err ∈ scanDetector chunk decoded dataLower verify detector <->
  foundKeyword dataLower (Keywords detector) = true /\
  exists results, FromData detector verify (Data decoded) = (results, Some err).
Proof.
  unfold Engine.scanDetector.
  destruct (Engine.foundKeyword ToLower dataLower (Keywords detector)); simpl.
  - destruct (FromData detector verify (Data decoded)) as [results [err'|]].
    + rewrite elem_of_cons, list_elem_of_singleton. split.
      * intros [H | H]; [discriminate |]. injection H as ->. eauto.
      * intros (_ & rs & H). injection H as _ ->. right; reflexivity.
    + rewrite elem_of_cons, list_elem_of_fmap. split.
      * intros [H | (result & H & _)]; discriminate.
      * intros (_ & rs & H). discriminate.
  - split; [intros H; inversion H | intros [H _]; discriminate].
Qed.

Lemma registered_valid (e : Engine) order k verify (detector : Detector) :
  validOrder e order ->
  (verify ∈ order k /\ detector ∈ default [] (detectors e !! verify)) <->
  exists detectorsSet,
    detectors e !! verify = Some detectorsSet /\ detector ∈ detectorsSet.
Proof.
  intros Hvalid. split.
  - intros [Hv Hd]. destruct (detectors e !! verify) as [set|]; [eauto |].
    inversion Hd.
  - intros (set & Hset & Hd). split.
    + apply (elem_of_rangeOrder _ _ _ (Hvalid k)). eauto.
    + rewrite Hset. exact Hd.
Qed.

(** X6.  What a worker sends for a chunk is exactly this: for each
    decoder that yields content, each registered detector that passes the
    prefilter on that content and whose [FromData] returns no error, each
    of the results returned, under the metadata of the chunk itself (not
    of the decoded chunk). *)
Theorem X6_findings_come_from_successful_calls (e : Engine) order chunk
    (r : ResultWithMetadata) :
  validOrder e order ->
  r ∈ sends (processChunk e order chunk) <->
  exists decoder decoded verify detectorsSet detector results result,
    decoder ∈ decoders e /\ FromChunk decoder chunk = Some decoded /\
    detectors e !! verify = Some detectorsSet /\ detector ∈ detectorsSet /\
    foundKeyword (ToLower (Data decoded)) (Keywords detector) = true /\
    FromData detector verify (Data decoded) = (results, None) /\
    result ∈ results /\ r = CopyMetadata chunk result.
Proof.
  intros Hvalid. unfold Engine.processChunk.
  rewrite elem_of_sends, event_in_rangeDecoders. split.
  - intros (k & decoder & decoded & verify & detector & Hk & Hdec & Hv & Hd & Hev).
    apply send_in_scanDetector in Hev as (Hfound & results & result & Hcall & Hin & ->).
    destruct (proj1 (registered_valid e order _ verify detector Hvalid)
                (conj Hv Hd)) as (set & Hset & Hd').
    exists decoder, decoded, verify, set, detector, results, result.
    repeat split; try assumption. eapply list_elem_of_lookup_2; eassumption.
  - intros (decoder & decoded & verify & set & detector & results & result &
            Hin & Hdec & Hset & Hd & Hfound & Hcall & Hres & ->).
    apply list_elem_of_lookup_1 in Hin as [k Hk].
    destruct (proj2 (registered_valid e order (0 + k)%nat verify detector Hvalid))
      as [Hv Hd']; [eauto |].
    exists k, decoder, decoded, verify, detector. repeat split; try assumption.
    apply send_in_scanDetector. split; [exact Hfound |]. eauto.
Qed.

(** X7.  An error is logged under a chunk exactly when, for some decoder
    that yields content, the [FromData] of a registered detector that
    passes the prefilter returns that error. *)
Theorem X7_errors_logged_are_errors_returned (e : Engine) order chunk (err : error) :
  validOrder e order ->
  EvLogError err ∈ processChunk e order chunk <->
  exists decoder decoded verify detectorsSet detector results,
    decoder ∈ decoders e /\ FromChunk decoder chunk = Some decoded /\
    detectors e !! verify = Some detectorsSet /\ detector ∈ detectorsSet /\
    foundKeyword (ToLower (Data decoded)) (Keywords detector) = true /\
    FromData detector verify (Data decoded) = (results, Some err).
Proof.
  intros Hvalid. unfold Engine.processChunk.
  rewrite event_in_rangeDecoders. split.
  - intros (k & decoder & decoded & verify & detector & Hk & Hdec & Hv & Hd & Hev).
    apply log_in_scanDetector in Hev as (Hfound & results & Hcall).
    destruct (proj1 (registered_valid e order _ verify detector Hvalid)
                (conj Hv Hd)) as (set & Hset & Hd').
    exists decoder, decoded, verify, set, detector, results.
    repeat split; try assumption. eapply list_elem_of_lookup_2; eassumption.
  - intros (decoder & decoded & verify & set & detector & results &
            Hin & Hdec & Hset & Hd & Hfound & Hcall).
    apply list_elem_of_lookup_1 in Hin as [k Hk].
    destruct (proj2 (registered_valid e order (0 + k)%nat verify detector Hvalid))
      as [Hv Hd']; [eauto |].
    exists k, decoder, decoded, verify, detector. repeat split; try assumption.
    apply log_in_scanDetector. split; [exact Hfound |]. eauto.
Qed.

(** X8.  When no registered detector finds a keyword in what any decoder
    yields, the worker does nothing with the chunk: no call, no log, no
    finding, in whatever order the map is visited.  So it is when every
    decoder declines and when the decoder chain is empty. *)
Theorem X8_no_keyword_no_event (e : Engine) order chunk :
  (forall decoder decoded verify detectorsSet detector,
     decoder ∈ decoders e -> FromChunk decoder chunk = Some decoded ->
     detectors e !! verify = Some detectorsSet -> detector ∈ detectorsSet ->
     foundKeyword (ToLower (Data decoded)) (Keywords detector) = false) ->
  processChunk e order chunk = [].
Proof.
  intros Hnone. unfold Engine.processChunk.
  destruct (rangeDecoders e order 0 chunk (decoders e)) as [|ev t] eqn:Ht;
    [reflexivity | exfalso].
  assert (Hev : ev ∈ rangeDecoders e order 0 chunk (decoders e))
    by (rewrite Ht; left).
  apply event_in_rangeDecoders in Hev
    as (k & decoder & decoded & verify & detector & Hk & Hdec & Hv & Hd & Hev).
  destruct (detectors e !! verify) as [set|] eqn:Hset; [| inversion Hd].
  simpl in Hd.
  unfold Engine.scanDetector in Hev.
  rewrite (Hnone decoder decoded verify set detector) in Hev;
    [inversion Hev | eapply list_elem_of_lookup_2; eassumption | assumption ..].
Qed.

(** X9.  A detector that declares no keyword is never called, on any
    chunk, by any engine, in any order. *)
Theorem X9_detector_without_keyword_is_never_called (e : Engine) order chunk
    (detector : Detector) verify data :
  Keywords detector = [] ->
  EvFromData detector verify data ∉ processChunk e order chunk.
Proof.
  intros Hkw Hin. unfold Engine.processChunk in Hin.
  apply call_in_rangeDecoders in Hin
    as (k & decoder & decoded & _ & _ & _ & _ & _ & Hfound).
  rewrite Hkw in Hfound. discriminate.
Qed.

(** X10.  A detector one of whose keywords is the empty string passes
    the prefilter on every payload: it is called on whatever every
    decoder yields, the lower-casing of the empty string being empty. *)
Theorem X10_empty_keyword_always_passes (e : Engine) order chunk decoder decoded
    verify detectorsSet (detector : Detector) :
  ToLower EmptyString = EmptyString ->
  EmptyString ∈ Keywords detector ->
  validOrder e order ->
  decoder ∈ decoders e -> FromChunk decoder chunk = Some decoded ->
  detectors e !! verify = Some detectorsSet -> detector ∈ detectorsSet ->
  EvFromData detector verify (Data decoded) ∈ processChunk e order chunk.
Proof.
  intros Hempty Hkw Hvalid Hin Hdec Hset Hd. unfold Engine.processChunk.
  apply call_in_rangeDecoders.
  apply list_elem_of_lookup_1 in Hin as [k Hk].
  exists k, decoder, decoded. repeat split; try assumption.
  - apply (elem_of_rangeOrder _ _ _ (Hvalid _)). eauto.
  - rewrite Hset. exact Hd.
  - apply foundKeyword_iff. exists EmptyString. split; [exact Hkw |].
    rewrite Hempty. apply Contains_occurs.
    exists EmptyString, (ToLower (Data decoded)). reflexivity.
Qed.

(** *** How often [FromData] is called *)

Lemma callCount_app (t1 t2 : list Event) :
  callCount (t1 ++ t2) = (callCount t1 + callCount t2)%nat.
Proof. unfold callCount. rewrite filter_app, length_app. reflexivity. Qed.

Lemma callCount_scanDetector chunk decoded dataLower verify (detector : Detector) :
  (callCount (scanDetector chunk decoded dataLower verify detector) <= 1)%nat.
Proof.
  unfold Engine.scanDetector.
  destruct (Engine.foundKeyword ToLower dataLower (Keywords detector)); simpl;
    [| unfold callCount; simpl; lia].
  destruct (FromData detector verify (Data decoded)) as [results [err|]].
  - unfold callCount. simpl. lia.
  - change (EvFromData detector verify (Data decoded) ::
            ((fun result => EvSend (CopyMetadata chunk result)) <$> results))
      with ([EvFromData detector verify (Data decoded)] ++
            ((fun result => @EvSend Result _ error (CopyMetadata chunk result))
               <$> results)).
    rewrite callCount_app.
    assert (H : callCount ((fun result => @EvSend Result _ error
                              (CopyMetadata chunk result)) <$> results) = 0%nat).
    { unfold callCount. induction results as [|r rs IH]; [reflexivity |].
      csimpl. rewrite filter_cons_False by (simpl; discriminate). exact IH. }
    rewrite H. unfold callCount. simpl. lia.
Qed.

Lemma callCount_rangeDetectors chunk decoded dataLower verify (set : list Detector) :
  (callCount (rangeDetectors chunk decoded dataLower verify set) <= length set)%nat.
Proof.
  induction set as [|d set IH]; simpl; [unfold callCount; simpl; lia |].
  rewrite callCount_app.
  pose proof (callCount_scanDetector chunk decoded dataLower verify d). lia.
Qed.

Lemma callCount_rangePartitions (e : Engine) chunk decoded dataLower keys :
  (callCount (rangePartitions e chunk decoded dataLower keys) <=
   sum_list ((fun verify => length (default [] (detectors e !! verify))) <$> keys))%nat.
Proof.
  induction keys as [|v keys IH]; csimpl; [unfold callCount; simpl; lia |].
  rewrite callCount_app.
  pose proof (callCount_rangeDetectors chunk decoded dataLower v
                (default [] (detectors e !! v))). lia.
Qed.

(** Going through the keys of a map and looking each one up meets every
    detector of the registry once. *)
Lemma registrySize_keys (m : gmap bool (list Detector)) keys :
  rangeOrder m keys ->
  sum_list ((fun verify => length (default [] (m !! verify))) <$> keys) =
  registrySize m.
Proof.
  unfold rangeOrder, mapKeys, registrySize. intros ->.
  rewrite <- !list_fmap_compose. f_equal.
  apply list_fmap_ext. intros i [k set] Hi. simpl.
  apply list_elem_of_lookup_2, elem_of_map_to_list in Hi. rewrite Hi. reflexivity.
Qed.

(** X11.  Under one chunk [FromData] is called at most once for each
    decoder of the chain and each detector of the registry. *)
Theorem X11_calls_bounded (e : Engine) order chunk :
  validOrder e order ->
  (callCount (processChunk e order chunk) <=
   length (decoders e) * registrySize (detectors e))%nat.
Proof.
  intros Hvalid. unfold Engine.processChunk. generalize 0%nat.
  induction (decoders e) as [|decoder ds IH]; intros i; simpl;
    [unfold callCount; simpl; lia |].
  rewrite callCount_app. specialize (IH (S i)).
  assert (callCount (scanDecoder e (order i) chunk decoder) <=
          registrySize (detectors e))%nat; [| lia].
  unfold Engine.scanDecoder. destruct (FromChunk decoder chunk) as [decoded|];
    [| unfold callCount; simpl; lia].
  rewrite <- (registrySize_keys (detectors e) (order i) (Hvalid i)).
  apply callCount_rangePartitions.
Qed.

End Trace.

Import Samples MoreSamples.

Lemma validOrder_withMute : validOrder (engineOf withMute) verifiedOnly.
Proof. intros i. unfold rangeOrder. vm_compute. reflexivity. Qed.

Lemma validOrder_withBroken : validOrder (engineOf withBroken) verifiedOnly.
Proof. intros i. unfold rangeOrder. vm_compute. reflexivity. Qed.

(** The finding of [aws] on the sample carries the path of the sample. *)
Lemma X6_witness :
  validOrder (engineOf oneWorker) verifiedOnly /\
  (("repo/config", "aws")%string ∈
     sends (processChunk asciiToLower copyMetadata (engineOf oneWorker)
              verifiedOnly sample) <->
   exists decoder decoded verify detectorsSet detector results result,
     decoder ∈ decoders (engineOf oneWorker) /\
     FromChunk decoder sample = Some decoded /\
     detectors (engineOf oneWorker) !! verify = Some detectorsSet /\
     detector ∈ detectorsSet /\
     foundKeyword asciiToLower (asciiToLower (Data decoded)) (Keywords detector)
       = true /\
     FromData detector verify (Data decoded) = (results, None) /\
     result ∈ results /\
     ("repo/config", "aws")%string = copyMetadata sample result).
Proof.
  split; [exact validOrder_verifiedOnly |].
  apply (X6_findings_come_from_successful_calls asciiToLower copyMetadata).
  exact validOrder_verifiedOnly.
Defined.

(** [broken] fails on the sample: its error is in the trace. *)
Lemma X7_witness :
  validOrder (engineOf withBroken) verifiedOnly /\
  EvLogError "connection refused"%string ∈
    processChunk asciiToLower copyMetadata (engineOf withBroken) verifiedOnly sample.
Proof.
  split; [exact validOrder_withBroken |].
  apply (X7_errors_logged_are_errors_returned asciiToLower copyMetadata
           (engineOf withBroken) verifiedOnly sample "connection refused"%string
           validOrder_withBroken).
  exists plain, sample, true, [broken; aws], broken, [].
  split; [vm_compute; left |]. split; [reflexivity |].
  split; [vm_compute; reflexivity |]. split; [left |].
  split; [vm_compute; reflexivity | reflexivity].
Defined.

(** Nothing in the chunk [dull] for the keyword of [aws]. *)
Lemma X8_witness :
  (forall decoder decoded verify detectorsSet detector,
     decoder ∈ decoders (engineOf oneWorker) ->
     FromChunk decoder dull = Some decoded ->
     detectors (engineOf oneWorker) !! verify = Some detectorsSet ->
     detector ∈ detectorsSet ->
     foundKeyword asciiToLower (asciiToLower (Data decoded)) (Keywords detector)
       = false) /\
  processChunk asciiToLower copyMetadata (engineOf oneWorker) verifiedOnly dull = [].
Proof.
  assert (H : forall decoder decoded verify detectorsSet detector,
     decoder ∈ decoders (engineOf oneWorker) ->
     FromChunk decoder dull = Some decoded ->
     detectors (engineOf oneWorker) !! verify = Some detectorsSet ->
     detector ∈ detectorsSet ->
     foundKeyword asciiToLower (asciiToLower (Data decoded)) (Keywords detector)
       = false).
  { intros decoder decoded verify set detector Hdec Hfrom Hset Hd.
    change (decoders (engineOf oneWorker)) with [plain] in Hdec.
    apply list_elem_of_singleton in Hdec. subst decoder.
    simpl in Hfrom. injection Hfrom as <-.
    change (detectors (engineOf oneWorker)) with
      (<[true := [aws]]> (∅ : gmap bool (list (@Detector string string)))) in Hset.
    destruct verify.
    - rewrite lookup_insert_eq in Hset. injection Hset as <-.
      apply list_elem_of_singleton in Hd. subst detector. vm_compute. reflexivity.
    - rewrite lookup_insert_ne, lookup_empty in Hset by discriminate. discriminate. }
  split; [exact H |].
  exact (X8_no_keyword_no_event asciiToLower copyMetadata (engineOf oneWorker)
           verifiedOnly dull H).
Defined.

(** [mute] declares no keyword. *)
Lemma X9_witness :
  Keywords mute = [] /\
  EvFromData mute true (Data sample) ∉
    processChunk asciiToLower copyMetadata (engineOf withMute) verifiedOnly sample.
Proof.
  split; [reflexivity |].
  exact (X9_detector_without_keyword_is_never_called asciiToLower copyMetadata
           (engineOf withMute) verifiedOnly sample mute true (Data sample) eq_refl).
Defined.

(** [always] has the empty keyword: it is called on [dull] too. *)
Lemma X10_witness :
  asciiToLower EmptyString = EmptyString /\
  EmptyString ∈ Keywords always /\
  validOrder (engineOf withMute) verifiedOnly /\
  EvFromData always true (Data dull) ∈
    processChunk asciiToLower copyMetadata (engineOf withMute) verifiedOnly dull.
Proof.
  assert (Hkw : EmptyString ∈ Keywords always) by left.
  split; [reflexivity |]. split; [exact Hkw |].
  split; [exact validOrder_withMute |].
  apply (X10_empty_keyword_always_passes asciiToLower copyMetadata
           (engineOf withMute) verifiedOnly dull plain dull true [mute; always]
           always eq_refl Hkw validOrder_withMute).
  - vm_compute. left.
  - reflexivity.
  - vm_compute. reflexivity.
  - right. left.
Defined.

(** One decoder and two detectors: at most two calls. *)
Lemma X11_witness :
  validOrder (engineOf withMute) verifiedOnly /\
  (callCount (processChunk asciiToLower copyMetadata (engineOf withMute)
                verifiedOnly sample) <=
   length (decoders (engineOf withMute)) * registrySize (detectors (engineOf withMute)))%nat.
Proof.
  split; [exact validOrder_withMute |].
  exact (X11_calls_bounded asciiToLower copyMetadata (engineOf withMute)
           verifiedOnly sample validOrder_withMute).
Defined.

(** X12.  On a payload and keywords of ASCII bytes only, where
    [strings.ToLower] lower-cases the letters A to Z and leaves the rest,
    the keyword loop finds a keyword exactly when some piece of the
    payload equals one of the keywords up to the case of its letters. *)
Theorem X12_prefilter_ignores_ascii_case (ToLower : string -> string)
    (data : string) (keywords : list string) :
  (forall s, isASCII s = true -> ToLower s = asciiToLower s) ->
  isASCII data = true ->
  (forall kw, kw ∈ keywords -> isASCII kw = true) ->
  foundKeyword ToLower (ToLower data) keywords = true <->
  exists kw pre mid post,
    kw ∈ keywords /\ data = pre +:+ mid +:+ post /\
    asciiToLower mid = asciiToLower kw.
Proof.
  intros Hlower Hdata Hkws. rewrite foundKeyword_iff, (Hlower data Hdata). split.
  - intros (kw & Hkw & Hc). rewrite (Hlower kw (Hkws kw Hkw)) in Hc.
    apply Contains_asciiToLower in Hc as (pre & mid & post & Hd & Hm).
    exists kw, pre, mid, post. auto.
  - intros (kw & pre & mid & post & Hkw & Hd & Hm). exists kw. split; [exact Hkw |].
    rewrite (Hlower kw (Hkws kw Hkw)). apply Contains_asciiToLower. eauto.
Qed.

(** The sample is ASCII and holds [AKIA] in capitals. *)
Lemma X12_witness :
  (forall s, isASCII s = true -> asciiToLower s = asciiToLower s) /\
  isASCII (Data sample) = true /\
  (forall kw, kw ∈ Keywords aws -> isASCII kw = true) /\
  foundKeyword asciiToLower (asciiToLower (Data sample)) (Keywords aws) = true.
Proof.
  assert (H1 : forall s, isASCII s = true -> asciiToLower s = asciiToLower s)
    by reflexivity.
  assert (H2 : isASCII (Data sample) = true) by reflexivity.
  assert (H3 : forall kw, kw ∈ Keywords aws -> isASCII kw = true).
  { intros kw Hkw. apply list_elem_of_singleton in Hkw. subst kw. reflexivity. }
  split; [exact H1 |]. split; [exact H2 |]. split; [exact H3 |].
  apply (X12_prefilter_ignores_ascii_case asciiToLower (Data sample) (Keywords aws)
           H1 H2 H3).
  exists "AKIA"%string, "key="%string, "AKIA"%string, "1234 token=ghp_5678"%string.
  split; [left |]. split; reflexivity.
Defined.

End TraceFacts.

(** ** The pool of workers *)
Module PoolFacts.
Import Engine ShutdownFacts.

Section Pool.
Context {Metadata Result ResultWithMetadata error : Type}.
Variable ToLower : string -> string.
Variable NumCPU : Z.
Variable CopyMetadata : @Chunk Metadata -> Result -> ResultWithMetadata.
Variable DefaultDecoders : list (@Decoder Metadata).
Variable DefaultDetectors : list (@Detector Result error).

Local Abbreviation System := (@Engine.System Metadata Result ResultWithMetadata error).
Local Abbreviation Worker := (@Engine.Worker ResultWithMetadata).
Local Abbreviation EngineOption := (@Engine.EngineOption Metadata Result error).
Local Abbreviation step := (Engine.step ToLower CopyMetadata).
Local Abbreviation processChunk := (Engine.processChunk ToLower CopyMetadata).
Local Abbreviation startEngine :=
  (Engine.startEngine NumCPU DefaultDecoders DefaultDetectors).
Local Abbreviation workerCount :=
  (@Engine.workerCount Metadata Result error NumCPU).
Local Abbreviation Start :=
  (@Engine.Start Metadata Result ResultWithMetadata error
     NumCPU DefaultDecoders DefaultDetectors).

Lemma pool_step (s s' : System) :
  step s s' ->
  length (workers s') = length (workers s) /\ sysEngine s' = sysEngine s.
Proof.
  intros Hstep. destruct Hstep; simpl; rewrite ?length_insert; auto.
Qed.

Lemma pool_run (s s' : System) :
  rtc step s s' ->
  length (workers s') = length (workers s) /\ sysEngine s' = sysEngine s.
Proof.
  intros Hrun. induction Hrun as [s | s s1 s2 Hstep _ IH]; [auto |].
  destruct (pool_step _ _ Hstep), IH. split; congruence.
Qed.

(** X13.  The pool is fixed when [Start] returns: at every moment of a
    run there are as many workers as [Start] started, which is the
    concurrency configured, or the number of CPUs when none was, or none
    when it is negative; and the engine they read stays the one [Start]
    returned. *)
Theorem X13_pool_is_fixed (options : list EngineOption) (s : System) :
  rtc step (Start options) s ->
  length (workers s) = workerCount options /\
  workerCount options =
    Z.to_nat (if concurrency (applyOptions options) =? 0 then NumCPU
              else concurrency (applyOptions options)) /\
  sysEngine s = startEngine options.
Proof.
  intros Hrun. destruct (pool_run _ _ Hrun) as [Hlen Heng].
  simpl in Hlen, Heng. rewrite length_replicate in Hlen.
  split; [exact Hlen |]. split; [| exact Heng].
  unfold Engine.workerCount, defaultConcurrency.
  destruct (concurrency (applyOptions options) =? 0); reflexivity.
Qed.

Lemma liveWorkers_le (ws : list Worker) :
  (sum_list (liveWeight <$> ws) <= length ws)%nat.
Proof.
  induction ws as [|w ws IH]; csimpl; [lia |]. destruct w; simpl; lia.
Qed.

(** X14.  The counter of the wait group is at every moment the number of
    workers that have not executed [Done]: it never goes below zero and
    never above the number of workers started. *)
Theorem X14_wait_group_counts_live_workers (options : list EngineOption)
    (s : System) :
  rtc step (Start options) s ->
  workerWg s = Z.of_nat (liveWorkers s) /\
  0 <= workerWg s <= Z.of_nat (workerCount options).
Proof.
  intros Hrun.
  pose proof (invariant_reachable ToLower CopyMetadata _ _
                (invariant_Start NumCPU DefaultDecoders DefaultDetectors options) Hrun)
    as (_ & Hwg & _ & _).
  split; [exact Hwg |].
  assert (Hlen : length (workers s) = workerCount options).
  { rewrite (proj1 (pool_run _ _ Hrun)). simpl. apply length_replicate. }
  rewrite Hwg. unfold liveWorkers.
  pose proof (liveWorkers_le (workers s)). lia.
Qed.

(** What the workers put on the results channel stems from a chunk. *)
Lemma produced_step (e : @Engine.Engine Metadata Result error) (s s' : System) :
  step s s' -> sysEngine s = e ->
  (forall r, r ∈ produced s ->
     exists chunk order, validOrder e order /\
       r ∈ sends (processChunk e order chunk)) ->
  forall r, r ∈ produced s' ->
    exists chunk order, validOrder e order /\
      r ∈ sends (processChunk e order chunk).
Proof.
  intros Hstep He Hs. destruct Hstep; simpl; try exact Hs.
  intros r Hr. apply elem_of_app in Hr as [Hr | Hr]; [apply Hs; exact Hr |].
  subst e. eauto.
Qed.

(** X15.  What the consumer has received is at every moment part of
    what the workers produced, each finding as often as it was produced
    at most; and every finding produced is one that the worker loop sends
    for some chunk under the engine [Start] returned. *)
Theorem X15_delivered_was_produced (options : list EngineOption) (s : System) :
  rtc step (Start options) s ->
  delivered s ⊆+ produced s /\
  forall r, r ∈ delivered s ->
    exists chunk order,
      validOrder (startEngine options) order /\
      r ∈ sends (processChunk (startEngine options) order chunk).
Proof.
  intros Hrun.
  pose proof (invariant_reachable ToLower CopyMetadata _ _
                (invariant_Start NumCPU DefaultDecoders DefaultDetectors options) Hrun)
    as (_ & _ & _ & Hperm).
  assert (Hsub : delivered s ⊆+ produced s).
  { rewrite <- Hperm. apply submseteq_inserts_r. reflexivity. }
  split; [exact Hsub |].
  assert (Hprod : sysEngine s = startEngine options /\
            forall r, r ∈ produced s ->
              exists chunk order, validOrder (startEngine options) order /\
                r ∈ sends (processChunk (startEngine options) order chunk)).
  { clear Hperm Hsub. remember (Start options) as s0 eqn:Hs0.
    assert (H0 : sysEngine s0 = startEngine options /\
              forall r, r ∈ produced s0 ->
                exists chunk order, validOrder (startEngine options) order /\
                  r ∈ sends (processChunk (startEngine options) order chunk)).
    { subst s0. simpl. split; [reflexivity |]. intros r Hr. inversion Hr. }
    clear Hs0. induction Hrun as [s | s s1 s2 Hstep Hrun IH]; [exact H0 |].
    apply IH. destruct H0 as [He Hp]. split.
    - rewrite (proj2 (pool_step _ _ Hstep)). exact He.
    - eapply produced_step; eassumption. }
  intros r Hr. apply (proj2 Hprod).
  eapply elem_of_submseteq; eassumption.
Qed.

(** X16.  Once the producer closed the chunks channel it stays closed
    and no chunk is drawn any more: what the workers produced so far is
    all they will ever produce. *)
Theorem X16_nothing_drawn_after_close (s s' : System) :
  chunksClosed s = true -> rtc step s s' ->
  chunksClosed s' = true /\ produced s' = produced s.
Proof.
  intros Hclosed Hrun. induction Hrun as [s | s s1 s2 Hstep Hrun IH]; [auto |].
  assert (H1 : chunksClosed s1 = true /\ produced s1 = produced s).
  { destruct Hstep; simpl; auto; congruence. }
  destruct H1 as [Hc1 Hp1]. destruct (IH Hc1) as [Hc2 Hp2].
  split; congruence.
Qed.

(** X17.  A negative concurrency starts no worker: nothing is ever
    drawn, produced or delivered, the wait group is at zero, and the
    closing goroutine can close the results channel while the chunks
    channel is still open. *)
Theorem X17_negative_concurrency_starts_no_worker (options : list EngineOption) :
  concurrency (applyOptions options) < 0 ->
  workerCount options = 0%nat /\
  (forall s, rtc step (Start options) s ->
     workers s = [] /\ produced s = [] /\ delivered s = [] /\ workerWg s = 0) /\
  exists s, rtc step (Start options) s /\
    resultsCloses s = 1%nat /\ chunksClosed s = false.
Proof.
  intros Hneg.
  assert (Hcount : workerCount options = 0%nat).
  { unfold Engine.workerCount, defaultConcurrency.
    destruct (Z.eqb_spec (concurrency (applyOptions options)) 0); [lia |].
    lia. }
  split; [exact Hcount |]. split.
  - intros s Hrun. remember (Start options) as s0 eqn:Hs0.
    assert (H0 : workers s0 = [] /\ produced s0 = [] /\ delivered s0 = [] /\
                 workerWg s0 = 0).
    { subst s0. simpl. rewrite Hcount. auto. }
    clear Hs0. induction Hrun as [s | s s1 s2 Hstep Hrun IH]; [exact H0 |].
    apply IH. destruct H0 as (Hw & Hp & Hd & Hg).
    destruct Hstep; simpl;
      try (match goal with
           | H : workers _ !! _ = Some _ |- _ => rewrite Hw in H; discriminate
           end);
      auto.
  - exists (closeResults (setCloser CSleep (Start options))). split.
    + eapply rtc_l.
      { apply step_wake; [reflexivity | simpl; rewrite Hcount; reflexivity]. }
      eapply rtc_l; [apply step_close_results; reflexivity | apply rtc_refl].
    + split; reflexivity.
Qed.

Lemma single_worker_step (s s' : System) :
  step s s' ->
  (exists w, workers s = [w] /\ delivered s ++ pendingOf w = produced s) ->
  exists w, workers s' = [w] /\ delivered s' ++ pendingOf w = produced s'.
Proof.
  intros Hstep (w & Hw & Hp).
  destruct Hstep as [s i chunk order Hopen Hi Hvalid | s Hopen
                    | s i r rest Hi Hcl Hnp | s i r rest Hi Hcl Hnp
                    | s i Hi | s i Hi Hclosed | s i Hi | s Hc Hz | s Hc]; simpl;
    try (exists w; split; assumption);
    rewrite Hw in Hi; destruct i as [|i]; try discriminate;
    simpl in Hi; injection Hi as ->; rewrite Hw; simpl in *.
  - eexists. split; [reflexivity |]. simpl.
    rewrite app_nil_r in Hp. rewrite Hp. reflexivity.
  - eexists. split; [reflexivity |]. simpl. rewrite <- app_assoc. exact Hp.
  - eexists. split; [reflexivity |]. exact Hp.
  - eexists. split; [reflexivity |]. exact Hp.
  - eexists. split; [reflexivity |]. exact Hp.
Qed.

(** X18.  With a single worker the consumer receives the findings in the
    order the worker produced them: what was delivered, followed by what
    the worker still holds, is what was produced, in that order; when the
    results channel is closed the delivered findings are the produced
    ones, in order. *)
Theorem X18_single_worker_keeps_the_order (options : list EngineOption)
    (s : System) :
  workerCount options = 1%nat ->
  rtc step (Start options) s ->
  delivered s ++ inFlight s = produced s /\
  (resultsCloses s = 1%nat -> delivered s = produced s).
Proof.
  intros Hone Hrun.
  assert (H : exists w, workers s = [w] /\ delivered s ++ pendingOf w = produced s).
  { remember (Start options) as s0 eqn:Hs0.
    assert (H0 : exists w, workers s0 = [w] /\
                   delivered s0 ++ pendingOf w = produced s0).
    { subst s0. simpl. rewrite Hone. exists WReceive. auto. }
    clear Hs0. induction Hrun as [s | s s1 s2 Hstep Hrun IH]; [exact H0 |].
    apply IH. eapply single_worker_step; eassumption. }
  destruct H as (w & Hw & Hp).
  assert (Hfl : inFlight s = pendingOf w).
  { unfold inFlight. rewrite Hw. simpl. apply app_nil_r. }
  split; [rewrite Hfl; exact Hp |].
  intros Hcl.
  pose proof (invariant_reachable ToLower CopyMetadata _ _
                (invariant_Start NumCPU DefaultDecoders DefaultDetectors options) Hrun)
    as (_ & _ & Hcloser & _).
  assert (Hlive : liveWorkers s = 0%nat).
  { destruct (closer s); [congruence | destruct Hcloser; congruence
                         | destruct Hcloser; assumption]. }
  pose proof (liveWorkers_0_inFlight (workers s) Hlive) as Hnone.
  fold (inFlight s) in Hnone. rewrite Hfl in Hnone.
  rewrite Hnone, app_nil_r in Hp. exact Hp.
Qed.

End Pool.

Import Samples MoreSamples.

(** At rest the one worker of [oneWorker] is still in the pool. *)
Lemma X13_witness :
  rtc (step GoStrings.asciiToLower copyMetadata)
      (Start 4 [plain] [aws] oneWorker) atRest /\
  length (workers atRest) = workerCount 4 oneWorker /\
  sysEngine atRest = startEngine 4 [plain] [aws] oneWorker.
Proof.
  split; [exact run_to_rest |].
  pose proof (X13_pool_is_fixed GoStrings.asciiToLower 4 copyMetadata [plain] [aws]
                oneWorker atRest run_to_rest) as (Hlen & _ & Heng).
  split; [exact Hlen | exact Heng].
Defined.

Lemma X14_witness :
  rtc (step GoStrings.asciiToLower copyMetadata)
      (Start 4 [plain] [aws] oneWorker) atRest /\
  0 <= workerWg atRest <= Z.of_nat (workerCount 4 oneWorker).
Proof.
  split; [exact run_to_rest |].
  exact (proj2 (X14_wait_group_counts_live_workers GoStrings.asciiToLower 4
                  copyMetadata [plain] [aws] oneWorker atRest run_to_rest)).
Defined.

Lemma X15_witness :
  rtc (step GoStrings.asciiToLower copyMetadata)
      (Start 4 [plain] [aws] oneWorker) atRest /\
  delivered atRest ⊆+ produced atRest.
Proof.
  split; [exact run_to_rest |].
  exact (proj1 (X15_delivered_was_produced GoStrings.asciiToLower 4
                  copyMetadata [plain] [aws] oneWorker atRest run_to_rest)).
Defined.

(** The producer closes at once; the worker then returns. *)
Lemma X16_witness :
  chunksClosed closedEarly = true /\
  rtc (step GoStrings.asciiToLower copyMetadata) closedEarly closedEarlyReturned /\
  chunksClosed closedEarlyReturned = true /\
  produced closedEarlyReturned = produced closedEarly.
Proof.
  assert (Hrun : rtc (step GoStrings.asciiToLower copyMetadata)
                   closedEarly closedEarlyReturned).
  { eapply rtc_l; [| apply rtc_refl].
    apply (step_return GoStrings.asciiToLower copyMetadata closedEarly 0%nat);
      reflexivity. }
  split; [reflexivity |]. split; [exact Hrun |].
  exact (X16_nothing_drawn_after_close GoStrings.asciiToLower copyMetadata
           closedEarly closedEarlyReturned eq_refl Hrun).
Defined.

(** A concurrency of minus one. *)
Lemma X17_witness :
  concurrency (applyOptions noWorkers) < 0 /\
  workerCount 4 noWorkers = 0%nat /\
  exists s, rtc (step GoStrings.asciiToLower copyMetadata)
              (Start 4 [plain] [aws] noWorkers) s /\
    resultsCloses s = 1%nat /\ chunksClosed s = false.
Proof.
  assert (Hneg : concurrency (applyOptions noWorkers) < 0) by reflexivity.
  split; [exact Hneg |].
  pose proof (X17_negative_concurrency_starts_no_worker GoStrings.asciiToLower 4
                copyMetadata [plain] [aws] noWorkers Hneg) as (Hcount & _ & Hclose).
  split; [exact Hcount | exact Hclose].
Defined.

Lemma X18_witness :
  workerCount 4 oneWorker = 1%nat /\
  rtc (step GoStrings.asciiToLower copyMetadata)
      (Start 4 [plain] [aws] oneWorker) atRest /\
  delivered atRest = produced atRest.
Proof.
  split; [reflexivity |]. split; [exact run_to_rest |].
  exact (proj2 (X18_single_worker_keeps_the_order GoStrings.asciiToLower 4
                  copyMetadata [plain] [aws] oneWorker atRest eq_refl run_to_rest)
           eq_refl).
Defined.

End PoolFacts.
